(** * Task intake, generation and publishing: a shallow embedding

    The development follows the three source files:
    - [generator.py]: the provider call, the extraction of a file mapping
      from the model's reply, the relevance filter and the dispatcher;
    - [handlers.py]: the snapshot of the remote repository, the per-file
      create-or-update write, the two round handlers and [handle_task];
    - [main.py]: the intake endpoint.

    Python [str] and [bytes] are both carried by [string] (a [str] stands
    for its UTF-8 encoding, so [content.encode('utf-8')] is the identity on
    the carrier); the constructors [PyStr] and [PyBytes] keep the two types
    apart where the source tests [isinstance]. *)

From Stdlib Require Import String Ascii List ZArith Bool Lia.
From Stdlib Require Import DecimalString.
Import ListNotations.
Open Scope string_scope.
Open Scope Z_scope.

Set Implicit Arguments.
Set Warnings "-register-all".

(** ** Python values *)

Module Py.

(** A Python dict keyed by [str]: the entries in insertion order, each
    key once.  The same structure carries the remote repository. *)
Section Dict.

Variable V : Type.

Definition dict := list (string * V).

Fixpoint dict_get (k : string) (d : dict) : option V :=
  match d with
  | [] => None
  | (k', v) :: rest => if String.eqb k k' then Some v else dict_get k rest
  end.

(** [d[k] = v]: an existing key keeps its position, a new key goes last. *)
Fixpoint dict_set (k : string) (v : V) (d : dict) : dict :=
  match d with
  | [] => [(k, v)]
  | (k', v') :: rest =>
      if String.eqb k k' then (k, v) :: rest else (k', v') :: dict_set k v rest
  end.

(** [d.update(e)]. *)
Definition dict_update (d e : dict) : dict :=
  fold_left (fun acc kv => dict_set (fst kv) (snd kv) acc) e d.

(** [dict(pairs)]: the dict built from key/value pairs taken in order, as
    a dict display is evaluated. *)
Definition dict_of_items (items : list (string * V)) : dict :=
  dict_update [] items.

Definition keys (d : dict) : list string := map fst d.

End Dict.

(** The values a literal can evaluate to, as far as the program tells them
    apart: it tests [isinstance(_, str)], [isinstance(_, dict)],
    [isinstance(_, list)], hands contents to [base64.b64encode] and tests
    membership in a dict (which hashes the candidate key).  Every other
    type (float, complex, tuple, set, ...) is [PyOther], carrying the name
    of its type and, when hashing it raises, the type that the [TypeError]
    names (its own for a set, that of the offending member for a tuple).
    Dict keys are [str]: the file sets of this program map
    paths to contents.  [PyDict] lists the key/value pairs of the display
    in evaluation order; [dict_of_items] makes the dict of them. *)
Inductive pyval : Type :=
| PyNone
| PyBool (b : bool)
| PyInt (z : Z)
| PyStr (s : string)
| PyBytes (b : string)
| PyList (l : list pyval)
| PyDict (items : list (string * pyval))
| PyOther (type_ : string) (hash_error : option string).

(** A dict of files. *)
Definition pydict := dict pyval.

(** Truth value of an optional identifier: [None] and [''] are false. *)
Definition truthy (o : option string) : bool :=
  match o with
  | Some s => negb (String.eqb s "")
  | None => false
  end.

Definition hashable (v : pyval) : bool :=
  match v with
  | PyList _ | PyDict _ => false
  | PyOther _ (Some _) => false
  | _ => true
  end.

(** The name [type(v).__name__] prints in a [TypeError]. *)
Definition type_name (v : pyval) : string :=
  match v with
  | PyNone => "NoneType"
  | PyBool _ => "bool"
  | PyInt _ => "int"
  | PyStr _ => "str"
  | PyBytes _ => "bytes"
  | PyList _ => "list"
  | PyDict _ => "dict"
  | PyOther type_ _ => type_
  end.

(** The type that [hash(v)] names when it raises
    [TypeError: unhashable type: '...']. *)
Definition unhashable_type (v : pyval) : string :=
  match v with
  | PyOther _ (Some named) => named
  | other => type_name other
  end.

Definition is_str (v : pyval) : bool :=
  match v with PyStr _ => true | _ => false end.

End Py.
Import Py.

(** ** Text helpers *)

Definition nl : string := String (ascii_of_nat 10) EmptyString.

Definition is_open (c : ascii) : bool := Ascii.eqb c "{"%char.
Definition is_close (c : ascii) : bool := Ascii.eqb c "}"%char.

Fixpoint has_char (p : ascii -> bool) (s : string) : bool :=
  match s with
  | EmptyString => false
  | String c rest => p c || has_char p rest
  end.

(** [needle in haystack] for [str]. *)
Fixpoint contains (needle haystack : string) : bool :=
  String.prefix needle haystack ||
  match haystack with
  | EmptyString => false
  | String _ rest => contains needle rest
  end.

(** [f"{n}"] for an [int]. *)
Definition str_of_int (z : Z) : string := NilZero.string_of_int (Z.to_int z).

(** ** The pattern [\{.*\}] under [re.DOTALL]

    [re.search] tries the pattern at each position from the left; at a
    position holding an opening brace the star first takes everything up
    to the end of the text and gives characters back until a closing brace
    follows. *)
Module Regex.

(** The text matched by [.*\}] anchored at the start of [s]. *)
Fixpoint greedy_to_close (s : string) : option string :=
  match s with
  | EmptyString => None
  | String c rest =>
      match greedy_to_close rest with
      | Some m => Some (String c m)
      | None => if is_close c then Some (String c EmptyString) else None
      end
  end.

(** [re.search(r'\{.*\}', s, re.DOTALL)], as [match.group(0)]. *)
Fixpoint search_braces (s : string) : option string :=
  match s with
  | EmptyString => None
  | String c rest =>
      if is_open c then
        match greedy_to_close rest with
        | Some m => Some (String c m)
        | None => search_braces rest
        end
      else search_braces rest
  end.

End Regex.

(** ** [ast.literal_eval] and the provider, as the program sees them *)

(** A raised exception: its class and [str(e)]. *)
Record exn : Type := Exn { exn_class : string; exn_text : string }.

Definition Exception (msg : string) : exn := Exn "Exception" msg.
Definition TypeError (msg : string) : exn := Exn "TypeError" msg.

(** The ways [ast.literal_eval] ends.  The source catches [ValueError] and
    [SyntaxError]; the interpreter documents that the function can also
    raise [TypeError], [MemoryError] and [RecursionError]. *)
Inductive eval_outcome : Type :=
| Evaluated (v : pyval)
| ValueOrSyntaxError (msg : string)
| OtherError (e : exn).

(** What [client.chat.completions.create(...)] followed by
    [response.choices[0].message.content] yields: a content (which the
    provider may leave [None]) or an exception, carried by its text. *)
Inductive completion : Type :=
| Completed (content : option string)
| ProviderRaised (e : string).

(** ** A literal evaluator for the list/dict/string fragment

    [ast.literal_eval] parses its argument and converts the tree.  The
    evaluator below does both for literals built from quoted strings (with
    the escapes of [unescape]), list displays and dict displays.  Text
    outside this grammar is reported as a syntax error here; the
    interpreter accepts more (numbers, tuples, sets, byte strings,
    adjacent string literals, ...).
    The program itself is stated over any evaluator (section [Program]);
    this one serves to run it on concrete replies. *)
Module Literal.

Inductive token : Type :=
| TLBrace | TRBrace | TLBrack | TRBrack | TColon | TComma
| TStr (s : string).

Inductive lex_state : Type :=
| Outside
| Inside (quote : ascii) (body : string)
| Escaped (quote : ascii) (body : string).

Definition dquote : ascii := ascii_of_nat 34.
Definition squote : ascii := "'"%char.
Definition backslash : ascii := "\"%char.

Definition is_space (c : ascii) : bool :=
  Ascii.eqb c " "%char || Ascii.eqb c (ascii_of_nat 9)
  || Ascii.eqb c (ascii_of_nat 10) || Ascii.eqb c (ascii_of_nat 13).

Definition punct (c : ascii) : option token :=
  if Ascii.eqb c "{"%char then Some TLBrace
  else if Ascii.eqb c "}"%char then Some TRBrace
  else if Ascii.eqb c "["%char then Some TLBrack
  else if Ascii.eqb c "]"%char then Some TRBrack
  else if Ascii.eqb c ":"%char then Some TColon
  else if Ascii.eqb c ","%char then Some TComma
  else None.

Definition unescape (c : ascii) : option ascii :=
  if Ascii.eqb c backslash then Some backslash
  else if Ascii.eqb c squote then Some squote
  else if Ascii.eqb c dquote then Some dquote
  else if Ascii.eqb c "n"%char then Some (ascii_of_nat 10)
  else if Ascii.eqb c "t"%char then Some (ascii_of_nat 9)
  else if Ascii.eqb c "r"%char then Some (ascii_of_nat 13)
  else None.

Definition snoc (s : string) (c : ascii) : string := s ++ String c EmptyString.

Fixpoint lex (st : lex_state) (acc : list token) (s : string)
  : option (list token) :=
  match s with
  | EmptyString =>
      match st with Outside => Some (rev acc) | _ => None end
  | String c rest =>
      match st with
      | Outside =>
          if is_space c then lex Outside acc rest
          else if Ascii.eqb c squote || Ascii.eqb c dquote
          then lex (Inside c EmptyString) acc rest
          else match punct c with
               | Some t => lex Outside (t :: acc) rest
               | None => None
               end
      | Inside q body =>
          if Ascii.eqb c q then lex Outside (TStr body :: acc) rest
          else if Ascii.eqb c backslash then lex (Escaped q body) acc rest
          else if Ascii.eqb c (ascii_of_nat 10) then None
          else lex (Inside q (snoc body c)) acc rest
      | Escaped q body =>
          match unescape c with
          | Some d => lex (Inside q (snoc body d)) acc rest
          | None => None
          end
      end
  end.

Inductive expr : Type :=
| EStr (s : string)
| EList (elts : list expr)
| EDict (items : list (expr * expr)).

(** Recursive descent; each call consumes a token, so the number of tokens
    is fuel enough. *)
Fixpoint parse_expr (fuel : nat) (ts : list token) : option (expr * list token) :=
  match fuel with
  | O => None
  | S fuel =>
      match ts with
      | TStr s :: rest => Some (EStr s, rest)
      | TLBrack :: TRBrack :: rest => Some (EList [], rest)
      | TLBrack :: rest =>
          match parse_elts fuel rest with
          | Some (es, rest') => Some (EList es, rest')
          | None => None
          end
      | TLBrace :: TRBrace :: rest => Some (EDict [], rest)
      | TLBrace :: rest =>
          match parse_items fuel rest with
          | Some (kvs, rest') => Some (EDict kvs, rest')
          | None => None
          end
      | _ => None
      end
  end
with parse_elts (fuel : nat) (ts : list token) : option (list expr * list token) :=
  match fuel with
  | O => None
  | S fuel =>
      match parse_expr fuel ts with
      | Some (e, TRBrack :: rest) => Some ([e], rest)
      | Some (e, TComma :: TRBrack :: rest) => Some ([e], rest)
      | Some (e, TComma :: rest) =>
          match parse_elts fuel rest with
          | Some (es, rest') => Some (e :: es, rest')
          | None => None
          end
      | _ => None
      end
  end
with parse_items (fuel : nat) (ts : list token)
  : option (list (expr * expr) * list token) :=
  match fuel with
  | O => None
  | S fuel =>
      match parse_expr fuel ts with
      | Some (k, TColon :: rest) =>
          match parse_expr fuel rest with
          | Some (v, TRBrace :: rest') => Some ([(k, v)], rest')
          | Some (v, TComma :: TRBrace :: rest') => Some ([(k, v)], rest')
          | Some (v, TComma :: rest') =>
              match parse_items fuel rest' with
              | Some (kvs, rest'') => Some ((k, v) :: kvs, rest'')
              | None => None
              end
          | _ => None
          end
      | _ => None
      end
  end.

Definition parse (s : string) : option expr :=
  match lex Outside [] s with
  | Some ts =>
      match parse_expr (S (List.length ts)) ts with
      | Some (e, []) => Some e
      | _ => None
      end
  | None => None
  end.

(** The conversion of the tree, left to right: a list converts its
    elements; a dict display converts each key and value and inserts the
    pair, which hashes the key.  In this grammar a key is a string, a list
    or a dict, and only the first is hashable. *)
Fixpoint convert (e : expr) : eval_outcome :=
  match e with
  | EStr s => Evaluated (PyStr s)
  | EList elts =>
      (fix go (l : list expr) (acc : list pyval) : eval_outcome :=
         match l with
         | [] => Evaluated (PyList (rev acc))
         | x :: rest =>
             match convert x with
             | Evaluated v => go rest (v :: acc)
             | err => err
             end
         end) elts []
  | EDict items =>
      (fix go (l : list (expr * expr)) (acc : list (string * pyval))
         : eval_outcome :=
         match l with
         | [] => Evaluated (PyDict (rev acc))
         | (k, v) :: rest =>
             match convert k with
             | Evaluated kv =>
                 match convert v with
                 | Evaluated vv =>
                     match kv with
                     | PyStr key => go rest ((key, vv) :: acc)
                     | _ => OtherError
                              (TypeError
                                 ("unhashable type: '" ++ unhashable_type kv
                                  ++ "'"))
                     end
                 | err => err
                 end
             | err => err
             end
         end) items []
  end.

Definition literal_eval (s : string) : eval_outcome :=
  match parse s with
  | Some e => convert e
  | None => ValueOrSyntaxError "invalid syntax"
  end.

End Literal.

(** ** Requests, responses and the remote store *)

Record Attachment : Type := { name : string; url : string }.

Record TaskRequest : Type := {
  email : string;
  secret : string;
  task : string;
  round : Z;
  nonce : string;
  brief : string;
  checks : list string;
  evaluation_url : string;
  attachments : option (list Attachment)
}.

(** The three instructions of [generator.py], by the values their
    f-strings interpolate. *)
Inductive prompt : Type :=
| RelevanceQuery (brief_ : string) (file_list : list string)
| SynthesisPrompt (task_name brief_ : string) (checks_ : list string)
    (attachments_ : list Attachment)
| ModificationPrompt (task_name brief_ : string) (checks_ : list string)
    (attachments_ : list Attachment) (existing_files : pydict).

(** What the program reads of an HTTP response: the status, the body as
    text, and the identifier its JSON carries ([json().get("sha")] on a
    probe, [json()["commit"]["sha"]] on a write). *)
Record response : Type := {
  status_code : Z;
  text : string;
  sha : option string
}.

(** The answers of the contents API to the listing requests of one
    snapshot: a listing holds the response and, for each entry, what the
    request made for it returns. *)
Inductive listing : Type :=
| Listing (list_resp : response) (entries : list item)
with item : Type :=
| FileItem (path : string) (file_resp : response)
| DirItem (path : string) (sub : listing)
| OtherItem (path : string).

(** The remote repository: content by path. *)
Definition store := dict string.

Record eval_payload : Type := {
  p_email : string;
  p_task : string;
  p_round : Z;
  p_nonce : string;
  repo_url : string;
  commit_sha : option string;
  pages_url : string
}.

(** The model calls and the requests that change something outside the
    process (POST and PUT), in order; a write is recorded with the path
    that went into its URL and the response it received.  The GET requests (listing, download, probe) are
    answered by the environment and leave no event. *)
Inductive event : Type :=
| ChatCompletion (p : prompt)
| PostRepo (repo_name : string)
| PutFile (path content : string) (existing_file_sha : option string)
    (put_resp : response)
| PostPages (repo_name : string)
| PostEvaluation (target : string) (payload : eval_payload).

Record world : Type := { remote : store; trace : list event }.

(** Everything outside the three source files: the two library functions,
    the process environment, the model provider and the remote services.
    [b64decode] gives the bytes, or nothing when the library raises, and
    then [b64decode_error] is what it raises.  The program interpolates a
    path into the URL of the contents API; [addressed repo path] is the
    file of the repository that a request to that URL reaches (the client
    drops a fragment, the server reads a query and dot segments its own
    way), so it need not be [path].  A write answered with 200 or 201
    stores the content at the file it addresses; a repository creation
    answered with 201 leaves the files of [auto_init]. *)
Record env : Type := {
  literal_eval : string -> eval_outcome;
  b64decode : string -> option string;
  b64decode_error : string -> exn;
  addressed : string -> string -> string;
  GITHUB_USER : string;
  STUDENT_SECRET : option string;
  chat_completion : prompt -> completion;
  post_repo : string -> response;
  auto_init : string -> store;
  get_contents : string -> listing;
  get_file : store -> string -> response;
  put_file : store -> string -> string -> option string -> response;
  post_pages : string -> response;
  post_evaluation : string -> eval_payload -> response
}.

(** ** Computations: state that survives an exception *)

Inductive outcome (A : Type) : Type :=
| Returns (a : A)
| Raises (e : exn).
Arguments Raises {A} e.

Definition M (A : Type) : Type := world -> outcome A * world.

Definition ret {A : Type} (a : A) : M A := fun w => (Returns a, w).

Definition bind {A B : Type} (c : M A) (k : A -> M B) : M B :=
  fun w =>
    match c w with
    | (Returns a, w') => k a w'
    | (Raises e, w') => (Raises e, w')
    end.

Definition raise {A : Type} (e : exn) : M A := fun w => (Raises e, w).

Definition lift {A : Type} (o : outcome A) : M A := fun w => (o, w).

Definition send (ev : event) : M unit :=
  fun w => (Returns tt, {| remote := remote w; trace := trace w ++ [ev] |}).

(** Standard output is not part of the world. *)
Definition print (line : string) : M unit := ret tt.

Definition read_remote : M store := fun w => (Returns (remote w), w).

Definition write_remote (st : store) : M unit :=
  fun w => (Returns tt, {| remote := st; trace := trace w |}).

Declare Scope comp_scope.
Delimit Scope comp_scope with comp.
Notation "x <- c ;; k" := (bind c (fun x => k))
  (at level 61, c at next level, right associativity) : comp_scope.
Notation "c ;;; k" := (bind c (fun _ => k))
  (at level 61, right associativity) : comp_scope.

(** ** The program *)

Section Program.

Variable E : env.

Local Open Scope comp_scope.

(** *** generator.py *)

Definition error_txt (content : string) : pydict :=
  [("error.txt",
    PyStr ("Failed to parse LLM response." ++ nl ++ nl ++ "Raw Content:"
           ++ nl ++ content))].

Definition error_html (e : string) : pydict :=
  [("error.html",
    PyStr ("<html><body><h1>Failed to generate app via LLM</h1><pre>" ++ e
           ++ "</pre></body></html>"))].

(** The body of [_execute_llm_call] once the provider has answered (or
    raised): the search for the brace-delimited span, its evaluation, and
    the three fallbacks.  A [None] content makes [re.search] raise a
    [TypeError], which the outer handler turns into the error page, as it
    does an exception of [ast.literal_eval] that the inner handler does not
    name. *)
Definition extract_files (reply : completion) : pydict :=
  match reply with
  | Completed (Some content) =>
      match Regex.search_braces content with
      | None => [("index.html", PyStr content)]
      | Some dict_str =>
          match literal_eval E dict_str with
          | Evaluated (PyDict items) => dict_of_items items
          | Evaluated _ => error_txt content
          | ValueOrSyntaxError _ => error_txt content
          | OtherError e => error_html (exn_text e)
          end
      end
  | Completed None =>
      error_html "expected string or bytes-like object, got 'NoneType'"
  | ProviderRaised e => error_html e
  end.

Definition _execute_llm_call (p : prompt) : M pydict :=
  send (ChatCompletion p) ;;;
  ret (extract_files (chat_completion E p)).

(** [ast.literal_eval(value)] on a value of the response dict: anything
    that is not a [str] is a malformed node, a [ValueError]. *)
Definition literal_eval_value (value : pyval) : eval_outcome :=
  match value with
  | PyStr s => literal_eval E s
  | _ => ValueOrSyntaxError "malformed node or string"
  end.

(** The loop of [_llm_filter_relevant_files] over [response_dict.items()]
    and the fallback after it. *)
Fixpoint first_list (items : pydict) (file_list : list string)
  : outcome (list pyval) :=
  match items with
  | [] => Returns (map PyStr file_list)
  | (_, value) :: rest =>
      match literal_eval_value value with
      | Evaluated (PyList relevant_files) => Returns relevant_files
      | Evaluated _ => first_list rest file_list
      | ValueOrSyntaxError _ => first_list rest file_list
      | OtherError e => Raises e
      end
  end.

Definition _llm_filter_relevant_files (brief_ : string) (file_list : list string)
  : M (list pyval) :=
  response_dict <- _execute_llm_call (RelevanceQuery brief_ file_list) ;;
  lift (first_list response_dict file_list).

Definition _generate_new_app (task_name brief_ : string) (checks_ : list string)
  (attachments_ : list Attachment) : M pydict :=
  _execute_llm_call (SynthesisPrompt task_name brief_ checks_ attachments_).

Definition _modify_existing_app (task_name brief_ : string)
  (checks_ : list string) (attachments_ : list Attachment)
  (existing_files : pydict) : M pydict :=
  _execute_llm_call
    (ModificationPrompt task_name brief_ checks_ attachments_ existing_files).

(** [{path: existing_files[path] for path in relevant_file_paths
      if path in existing_files}]: the membership test hashes [path]. *)
Fixpoint context_of (relevant_file_paths : list pyval) (existing_files acc : pydict)
  : outcome pydict :=
  match relevant_file_paths with
  | [] => Returns acc
  | path_ :: rest =>
      if hashable path_ then
        match path_ with
        | PyStr p =>
            match dict_get p existing_files with
            | Some content => context_of rest existing_files (dict_set p content acc)
            | None => context_of rest existing_files acc
            end
        | _ => context_of rest existing_files acc
        end
      else Raises (TypeError ("unhashable type: '" ++ unhashable_type path_
                              ++ "'"))
  end.

Definition generate_app_code (task_name brief_ : string) (checks_ : list string)
  (attachments_ : list Attachment) (existing_files : option pydict) : M pydict :=
  match existing_files with
  | Some (entry :: more) =>
      let files := entry :: more in
      let all_file_paths := keys files in
      relevant_file_paths <- _llm_filter_relevant_files brief_ all_file_paths ;;
      context_files <- lift (context_of relevant_file_paths files []) ;;
      _modify_existing_app task_name brief_ checks_ attachments_ context_files
  | _ => _generate_new_app task_name brief_ checks_ attachments_
  end.

(** *** handlers.py *)

(** [for item in list_resp.json()] of [_get_repo_files], with the recursive
    call on a directory. *)
Fixpoint _get_repo_files (path_ : string) (l : listing) : outcome pydict :=
  match l with
  | Listing list_resp entries =>
      if negb (status_code list_resp =? 200) then
        Raises (Exception ("Failed to list repo contents for path '" ++ path_
                           ++ "': " ++ text list_resp))
      else
        (fix each (items : list item) (existing_files : pydict)
           : outcome pydict :=
           match items with
           | [] => Returns existing_files
           | FileItem p file_resp :: rest =>
               if status_code file_resp =? 200
               then each rest (dict_set p (PyStr (text file_resp)) existing_files)
               else each rest existing_files
           | DirItem p sub :: rest =>
               match _get_repo_files p sub with
               | Returns found => each rest (dict_update existing_files found)
               | Raises e => Raises e
               end
           | OtherItem _ :: rest => each rest existing_files
           end) entries []
  end.

(** [base64.b64encode(content_bytes)] needs bytes; a [str] was encoded
    just before. *)
Definition content_bytes_of (content : pyval) : outcome string :=
  match content with
  | PyStr s => Returns s
  | PyBytes b => Returns b
  | other => Raises (TypeError ("a bytes-like object is required, not '"
                                ++ type_name other ++ "'"))
  end.

(** The probe of the URL built from the path, the encoding of the
    content, and the PUT to the same URL; when it is answered 200 or 201
    the store takes the content at the file the URL addresses. *)
Definition upload_or_update_file (repo_name path_ : string) (content : pyval)
  : M (option string) :=
  st <- read_remote ;;
  let get_resp := get_file E st path_ in
  existing_file_sha <-
    (if status_code get_resp =? 200 then ret (sha get_resp)
     else if negb (status_code get_resp =? 404)
     then raise (Exception ("Failed to check for file " ++ path_ ++ ": "
                            ++ text get_resp))
     else ret None) ;;
  content_bytes <- lift (content_bytes_of content) ;;
  let payload_sha := if truthy existing_file_sha then existing_file_sha else None in
  let put_resp := put_file E st path_ content_bytes payload_sha in
  send (PutFile path_ content_bytes payload_sha put_resp) ;;;
  if (status_code put_resp =? 200) || (status_code put_resp =? 201)
  then write_remote (dict_set (addressed E repo_name path_) content_bytes st) ;;;
       ret (sha put_resp)
  else raise (Exception ("Upload failed for " ++ path_ ++ ": " ++ text put_resp)).

(** [att.url.split(",")[1]]: the text between the first comma and the
    next one (or the end); without a comma the index is out of range. *)
Fixpoint until_comma (s : string) : string :=
  match s with
  | EmptyString => EmptyString
  | String c rest =>
      if Ascii.eqb c ","%char then EmptyString else String c (until_comma rest)
  end.

Fixpoint split_comma_1 (s : string) : option string :=
  match s with
  | EmptyString => None
  | String c rest =>
      if Ascii.eqb c ","%char then Some (until_comma rest) else split_comma_1 rest
  end.

Definition decode_attachment (att : Attachment) : outcome pyval :=
  match split_comma_1 (url att) with
  | None => Raises (Exn "IndexError" "list index out of range")
  | Some data =>
      match b64decode E data with
      | Some bytes => Returns (PyBytes bytes)
      | None => Raises (b64decode_error E data)
      end
  end.

(** [for att in task.attachments: files[att.name] = base64.b64decode(...)]. *)
Fixpoint overlay (atts : list Attachment) (files : pydict) : outcome pydict :=
  match atts with
  | [] => Returns files
  | att :: rest =>
      match decode_attachment att with
      | Returns bytes => overlay rest (dict_set (name att) bytes files)
      | Raises e => Raises e
      end
  end.

(** Iterating over [task.attachments] when the request left it [None]. *)
Definition iter_attachments (t : TaskRequest) : outcome (list Attachment) :=
  match attachments t with
  | Some atts => Returns atts
  | None => Raises (TypeError "'NoneType' object is not iterable")
  end.

(** [for path, content in files.items(): latest_commit_sha = upload(...)]. *)
Fixpoint upload_all (repo_name : string) (items : pydict)
  (latest_commit_sha : option string) : M (option string) :=
  match items with
  | [] => ret latest_commit_sha
  | (path_, content) :: rest =>
      new_sha <- upload_or_update_file repo_name path_ content ;;
      upload_all repo_name rest new_sha
  end.

Definition _handle_round_1 (t : TaskRequest) : M (option string) :=
  let repo_name := task t in
  send (PostRepo repo_name) ;;;
  let create_resp := post_repo E repo_name in
  (if negb (status_code create_resp =? 201)
   then raise (Exception ("Failed to create repo: " ++ text create_resp))
   else write_remote (auto_init E repo_name)) ;;;
  attachments_for_generator <- lift (iter_attachments t) ;;
  generated <- generate_app_code (task t) (brief t) (checks t)
                 attachments_for_generator None ;;
  atts <- lift (iter_attachments t) ;;
  files_to_upload <- lift (overlay atts generated) ;;
  latest_commit_sha <- upload_all repo_name files_to_upload None ;;
  send (PostPages repo_name) ;;;
  let pages_resp := post_pages E repo_name in
  (if negb ((status_code pages_resp =? 201) || (status_code pages_resp =? 204))
   then print ("Warning: GitHub Pages setup returned status "
               ++ str_of_int (status_code pages_resp))
   else ret tt) ;;;
  ret latest_commit_sha.

Definition _handle_round_2 (t : TaskRequest) : M (option string) :=
  let repo_name := task t in
  existing_files <- lift (_get_repo_files "" (get_contents E repo_name)) ;;
  match existing_files with
  | [] => raise (Exception "Could not retrieve existing files to modify.")
  | _ :: _ =>
      attachments_for_generator <- lift (iter_attachments t) ;;
      generated <- generate_app_code (task t) (brief t) (checks t)
                     attachments_for_generator (Some existing_files) ;;
      atts <- lift (iter_attachments t) ;;
      files_to_update <- lift (overlay atts generated) ;;
      upload_all repo_name files_to_update None
  end.

Definition handle_task (t : TaskRequest) : M unit :=
  let repo_name := task t in
  latest_commit_sha <-
    (if round t =? 1 then _handle_round_1 t
     else if round t >? 1 then _handle_round_2 t
     else raise (Exception ("Unknown round: " ++ str_of_int (round t)))) ;;
  if negb (truthy latest_commit_sha)
  then raise (Exception "Failed to retrieve a valid commit SHA.")
  else
    let payload :=
      {| p_email := email t; p_task := task t; p_round := round t;
         p_nonce := nonce t;
         repo_url := "https://github.com/" ++ GITHUB_USER E ++ "/" ++ repo_name;
         commit_sha := latest_commit_sha;
         pages_url := "https://" ++ GITHUB_USER E ++ ".github.io/" ++ repo_name
                      ++ "/" |} in
    send (PostEvaluation (evaluation_url t) payload) ;;;
    let eval_resp := post_evaluation E (evaluation_url t) payload in
    if negb (status_code eval_resp =? 200)
    then raise (Exception ("Evaluation notification failed: " ++ text eval_resp))
    else ret tt.

(** *** main.py *)

Inductive http_reply : Type :=
| Ok200 (status message : string)
| HTTPException (code : Z) (detail : string).

(** [req.secret != expected_secret], where [os.getenv] gives [None] for an
    unset variable. *)
Definition secret_differs (given : string) (expected_secret : option string)
  : bool :=
  match expected_secret with
  | Some expected => negb (String.eqb given expected)
  | None => true
  end.

(** [await asyncio.to_thread(handle_task, req)] resumes the handler when
    [handle_task] has returned or raised on its thread; the handler then
    builds the reply. *)
Definition receive_task (req : TaskRequest) (w : world) : http_reply * world :=
  let expected_secret := STUDENT_SECRET E in
  if secret_differs (secret req) expected_secret
  then (HTTPException 403 "Invalid secret", w)
  else
    match handle_task req w with
    | (Returns _, w') => (Ok200 "ok" "Task received and being processed.", w')
    | (Raises e, w') => (HTTPException 500 (exn_text e), w')
    end.

End Program.

(** The environment [E] with another hosting service. *)
Definition with_post_pages (f : string -> response) (E : env) : env :=
  {| literal_eval := literal_eval E;
     b64decode := b64decode E;
     b64decode_error := b64decode_error E;
     addressed := addressed E;
     GITHUB_USER := GITHUB_USER E;
     STUDENT_SECRET := STUDENT_SECRET E;
     chat_completion := chat_completion E;
     post_repo := post_repo E;
     auto_init := auto_init E;
     get_contents := get_contents E;
     get_file := get_file E;
     put_file := put_file E;
     post_pages := f;
     post_evaluation := post_evaluation E |}.

(** ** A concrete environment

    The decoder of [base64.b64decode] with its default, lenient mode, and
    services that answer every request with success; the variants below
    change one service at a time. *)
Module Demo.

Definition b64_value (c : ascii) : option N :=
  let n := N_of_ascii c in
  (if (65 <=? n) && (n <=? 90) then Some (n - 65)
   else if (97 <=? n) && (n <=? 122) then Some (n - 71)
   else if (48 <=? n) && (n <=? 57) then Some (n + 4)
   else if n =? 43 then Some 62
   else if n =? 47 then Some 63
   else None)%N.

Definition pad : ascii := "="%char.

Definition byte (n : N) : ascii := ascii_of_N (n mod 256).

Definition push (acc : string) (n : N) : string :=
  acc ++ String (byte n) EmptyString.

(** The loop of [binascii.a2b_base64] without [strict_mode]: characters
    outside the alphabet are skipped, a pad sequence that completes a
    quad ends the parse, and what is returned is the position in the
    current quad (0 when the parse ended on a complete quad or on such a
    pad sequence) with the bytes decoded so far. *)
Fixpoint a2b_base64 (s : string) (quad_pos leftchar pads : N) (acc : string)
  : N * string :=
  match s with
  | EmptyString => (quad_pos, acc)
  | String ch rest =>
      if Ascii.eqb ch pad then
        (if 2 <=? quad_pos then
           if 4 <=? quad_pos + (pads + 1) then (0, acc)
           else a2b_base64 rest quad_pos leftchar (pads + 1) acc
         else a2b_base64 rest quad_pos leftchar pads acc)%N
      else
        match b64_value ch with
        | None => a2b_base64 rest quad_pos leftchar pads acc
        | Some v =>
            (if quad_pos =? 0 then a2b_base64 rest 1 v 0 acc
             else if quad_pos =? 1
             then a2b_base64 rest 2 (v mod 16) 0 (push acc (leftchar * 4 + v / 16))
             else if quad_pos =? 2
             then a2b_base64 rest 3 (v mod 4) 0 (push acc (leftchar * 16 + v / 4))
             else a2b_base64 rest 0 0 0 (push acc (leftchar * 64 + v)))%N
        end
  end.

(** A [str] argument is encoded as ASCII first. *)
Definition is_ascii (s : string) : bool :=
  negb (has_char (fun c => (128 <=? N_of_ascii c)%N) s).

Definition base64_decode (s : string) : option string :=
  if is_ascii s then
    match a2b_base64 s 0 0 0 EmptyString with
    | (0%N, bytes) => Some bytes
    | _ => None
    end
  else None.

(** What [base64.b64decode] raises on the strings it does not decode. *)
Definition base64_error (s : string) : exn :=
  if is_ascii s then
    match a2b_base64 s 0 0 0 EmptyString with
    | (1%N, bytes) =>
        Exn "binascii.Error"
          ("Invalid base64-encoded string: number of data characters ("
           ++ str_of_int (Z.of_nat (String.length bytes) / 3 * 4 + 1)
           ++ ") cannot be 1 more than a multiple of 4")
    | _ => Exn "binascii.Error" "Incorrect padding"
    end
  else Exn "ValueError" "string argument should contain only ASCII characters".

Definition ok (code : Z) (id : option string) : response :=
  {| status_code := code; text := ""; sha := id |}.

Definition failure (code : Z) (body : string) : response :=
  {| status_code := code; text := body; sha := None |}.

(** The file a path without dot segments addresses once it stands in a
    URL: what comes before the first [#] (the client drops the fragment)
    or [?] (the server reads a query). *)
Fixpoint url_path (p : string) : string :=
  match p with
  | EmptyString => EmptyString
  | String c rest =>
      if Ascii.eqb c "#"%char || Ascii.eqb c "?"%char then EmptyString
      else String c (url_path rest)
  end.

(** The probe of the contents API: 200 with the blob identifier when the
    file exists, 404 otherwise. *)
Definition probe (st : store) (p : string) : response :=
  match dict_get (url_path p) st with
  | Some _ => ok 200 (Some "b10b")
  | None => failure 404 "Not Found"
  end.

Definition base (reply : prompt -> completion) (tree : listing) : env :=
  {| literal_eval := Literal.literal_eval;
     b64decode := base64_decode;
     b64decode_error := base64_error;
     addressed := fun _ p => url_path p;
     GITHUB_USER := "octo";
     STUDENT_SECRET := Some "s3cret";
     chat_completion := reply;
     post_repo := fun _ => ok 201 None;
     auto_init := fun _ => [("README.md", "# demo"); ("LICENSE", "MIT License")];
     get_contents := fun _ => tree;
     get_file := probe;
     put_file := fun st p _ _ =>
                   match dict_get (url_path p) st with
                   | Some _ => ok 200 (Some "c0ffee")
                   | None => ok 201 (Some "c0ffee")
                   end;
     post_pages := fun _ => ok 201 None;
     post_evaluation := fun _ _ => ok 200 None |}.

(** An environment whose provider never answers with content and whose
    repository is empty. *)
Definition quiet : env :=
  base (fun _ => Completed None) (Listing (ok 200 None) []).

End Demo.

(** ** Vocabulary of the statements *)

Fixpoint ends_with_close (s : string) : bool :=
  match s with
  | EmptyString => false
  | String c rest =>
      match rest with
      | EmptyString => is_close c
      | String _ _ => ends_with_close rest
      end
  end.

(** The text opens with a brace and closes with one. *)
Definition brace_delimited (s : string) : bool :=
  match s with
  | EmptyString => false
  | String c rest => is_open c && ends_with_close rest
  end.

Definition str_values (items : list (string * pyval)) : bool :=
  forallb (fun kv => is_str (snd kv)) items.

(** A well-formed brace-delimited literal mapping of strings to strings. *)
Definition mapping_literal (E : env) (s : string) : bool :=
  brace_delimited s &&
  match literal_eval E s with
  | Evaluated (PyDict items) => str_values items
  | _ => false
  end.

(** Every way of cutting a text in two. *)
Fixpoint splits (s : string) : list (string * string) :=
  (EmptyString, s) ::
  match s with
  | EmptyString => []
  | String c rest => map (fun ab => (String c (fst ab), snd ab)) (splits rest)
  end.

(** The occurrences of a mapping literal in a text, each with what stands
    before and after it. *)
Definition occurrences (E : env) (content : string)
  : list (string * string * string) :=
  flat_map
    (fun pr =>
       map (fun mp => (fst pr, fst mp, snd mp))
         (filter (fun mp => mapping_literal E (fst mp)) (splits (snd pr))))
    (splits content).

(** The first claim as the specification words it: a reply holding exactly
    one mapping literal is turned into that mapping. *)
Definition returns_sole_mapping (E : env) (content : string) : Prop :=
  forall pre m post items,
    occurrences E content = [(pre, m, post)] ->
    literal_eval E m = Evaluated (PyDict items) ->
    extract_files E (Completed (Some content)) = dict_of_items items.

(** The fourth claim as worded: no reply yields an empty file set. *)
Definition never_empty (E : env) (reply : completion) : Prop :=
  extract_files E reply <> [].

(** Whether some value of a file set holds [raw] as a substring. *)
Definition some_value_contains (raw : string) (files : pydict) : bool :=
  existsb (fun kv => match snd kv with
                     | PyStr s => contains raw s
                     | _ => false
                     end) files.

(** The events a computation added to the trace. *)
Definition new_events (w w' : world) : list event :=
  skipn (List.length (trace w)) (trace w').

(** A write the remote store accepted. *)
Definition accepted (r : response) : bool :=
  (status_code r =? 200) || (status_code r =? 201).

(** A write that was accepted and came back with a valid identifier. *)
Definition identified_write (ev : event) : bool :=
  match ev with
  | PutFile _ _ _ put_resp => accepted put_resp && truthy (sha put_resp)
  | _ => false
  end.

Definition is_notification (ev : event) : bool :=
  match ev with PostEvaluation _ _ => true | _ => false end.

Definition is_model_call (ev : event) : bool :=
  match ev with ChatCompletion _ => true | _ => false end.

Definition is_put (ev : event) : bool :=
  match ev with PutFile _ _ _ _ => true | _ => false end.

(** The files that the paths of some write requests address. *)
Definition targets (E : env) (repo : string) (paths : list string)
  : list string :=
  map (addressed E repo) paths.

(** The paths of the write requests among some events, in order. *)
Definition put_paths (evs : list event) : list string :=
  flat_map (fun ev => match ev with
                      | PutFile p _ _ _ => [p]
                      | _ => []
                      end) evs.

(** The attachment that the overlay leaves at a path: the last one of
    that name. *)
Fixpoint last_named (p : string) (atts : list Attachment) : option Attachment :=
  match atts with
  | [] => None
  | att :: rest =>
      match last_named p rest with
      | Some later => Some later
      | None => if String.eqb (name att) p then Some att else None
      end
  end.

(** The hosting call was refused: a status outside 201 and 204. *)
Definition hosting_refused (r : response) : bool :=
  negb ((status_code r =? 201) || (status_code r =? 204)).

(** The seventh claim as worded: on round 1 a refused hosting call aborts
    the round and the evaluation sink hears nothing. *)
Definition hosting_failure_fatal (E : env) (t : TaskRequest) (w : world) : Prop :=
  round t = 1 ->
  In (PostPages (task t)) (new_events w (snd (handle_task E t w))) ->
  hosting_refused (post_pages E (task t)) = true ->
  (exists e, fst (handle_task E t w) = Raises e)
  /\ existsb is_notification (new_events w (snd (handle_task E t w))) = false.

Definition acknowledgement : http_reply :=
  Ok200 "ok" "Task received and being processed.".

(** A payload the endpoint accepts: the secret is the configured one and
    the round is 1 or more. *)
Definition accepted_payload (E : env) (req : TaskRequest) : Prop :=
  secret_differs (secret req) (STUDENT_SECRET E) = false /\ 1 <= round req.

(** The ninth claim as worded: an accepted payload is acknowledged
    whatever becomes of [handle_task]. *)
Definition acknowledged_regardless (E : env) (req : TaskRequest) (w : world)
  : Prop :=
  accepted_payload E req -> fst (receive_task E req w) = acknowledgement.

(** What each event of the loop is: a write of an entry of the file set,
    carrying that entry's bytes. *)
Definition writes_entry_of (items : pydict) (ev : event) : Prop :=
  exists p content bytes s resp,
    ev = PutFile p bytes s resp
    /\ In (p, content) items
    /\ content_bytes_of content = Returns bytes.

(** The world after one more request. *)
Definition posted (ev : event) (w : world) : world :=
  {| remote := remote w; trace := (trace w ++ [ev])%list |}.

(** The payload [handle_task] sends to the evaluation sink. *)
Definition notification (E : env) (t : TaskRequest) (id : option string)
  : eval_payload :=
  {| p_email := email t; p_task := task t; p_round := round t;
     p_nonce := nonce t;
     repo_url := "https://github.com/" ++ GITHUB_USER E ++ "/" ++ task t;
     commit_sha := id;
     pages_url := "https://" ++ GITHUB_USER E ++ ".github.io/" ++ task t ++ "/" |}.

(** The round handler [handle_task] selects. *)
Definition dispatch (E : env) (t : TaskRequest) : M (option string) :=
  if round t =? 1 then _handle_round_1 E t
  else if round t >? 1 then _handle_round_2 E t
  else raise (Exception ("Unknown round: " ++ str_of_int (round t))).

(** An event that is neither a write nor a notification. *)
Definition is_plain (ev : event) : bool :=
  negb (is_put ev) && negb (is_notification ev).

(** ** Proof steps *)

(** A handler that raised before the write loop, having sent [evs]. *)
Ltac raised_before_loop evs :=
  let H := fresh in
  intros H; injection H as <- <-; left; split; [eauto|]; exists evs.

(** ** Scenarios *)
Module Scenario.

Definition fresh : world := {| remote := []; trace := [] |}.

Definition request (n : Z) (atts : list Attachment) : TaskRequest :=
  {| email := "student@example.com"; secret := "s3cret"; task := "demo-app";
     round := n; nonce := "n-1"; brief := "a todo list";
     checks := ["has an add button"]; evaluation_url := "https://eval.example/notify";
     attachments := Some atts |}.

Definition no_files : listing := Listing (Demo.ok 200 None) [].

Definition two_files (p : prompt) : completion :=
  Completed
    (Some "Sure! {'index.html': '<h1>todo</h1>', 'README.md': '# demo-app'} Enjoy.").

(** Round 1 of the specification's scenario. *)
Definition creation : env := Demo.base two_files no_files.

(** The same, with the hosting service answering 500. *)
Definition pages_down : env :=
  with_post_pages (fun _ => Demo.failure 500 "Server Error") creation.

(** A provider that answers the empty mapping. *)
Definition empty_reply : env :=
  Demo.base (fun _ => Completed (Some "{}")) no_files.

Definition served (body : string) : response :=
  {| status_code := 200; text := body; sha := None |}.

Definition site : listing :=
  Listing (Demo.ok 200 None)
    [FileItem "index.html" (served "<h1>todo</h1>");
     FileItem "style.css" (served "button {}");
     DirItem "docs" (Listing (Demo.ok 200 None)
                       [FileItem "docs/README.md" (served "# demo-app")])].

Definition published : world :=
  {| remote := [("index.html", "<h1>todo</h1>"); ("style.css", "button {}");
                ("docs/README.md", "# demo-app")];
     trace := [] |}.

Definition restyle (p : prompt) : completion :=
  match p with
  | RelevanceQuery _ _ => Completed (Some "['index.html', 'style.css']")
  | _ => Completed (Some "{'style.css': 'button { color: red }'}")
  end.

(** Round 2 of the specification's scenario. *)
Definition modification : env := Demo.base restyle site.

Definition stylesheet : Attachment :=
  {| name := "style.css"; url := "data:text/css;base64,aGVsbG8=" |}.

(** A repository whose only file cannot be downloaded. *)
Definition unreadable : env :=
  Demo.base restyle
    (Listing (Demo.ok 200 None)
       [FileItem "index.html" (Demo.failure 503 "Service Unavailable")]).

(** A provider whose relevance answer wraps a dict display with a list as
    key. *)
Definition unhashable (p : prompt) : completion :=
  Completed (Some "{'files': '{[]: []}'}").

Definition unhashable_relevance : env := Demo.base unhashable site.

(** A provider whose modification names a file with a fragment. *)
Definition anchor (p : prompt) : completion :=
  match p with
  | RelevanceQuery _ _ => Completed (Some "['index.html']")
  | _ => Completed (Some "{'index.html#v2': '<h1>v2</h1>'}")
  end.

Definition anchored : env := Demo.base anchor site.




Definition logo : Attachment :=
  {| name := "logo.txt"; url := "data:text/plain;base64,aGVsbG8=" |}.

End Scenario.


(** ** Vocabulary of the further properties *)

(** Some opening brace of the text has a closing brace after it. *)
Fixpoint open_then_close (s : string) : bool :=
  match s with
  | EmptyString => false
  | String c rest =>
      (is_open c && has_char is_close rest) || open_then_close rest
  end.

(** An evaluation the loops of [generator.py] go past: a [ValueError] or
    [SyntaxError], or a value that is no list. *)
Definition skipped_by_filter (o : eval_outcome) : bool :=
  match o with
  | Evaluated (PyList _) => false
  | Evaluated _ => true
  | ValueOrSyntaxError _ => true
  | OtherError _ => false
  end.

(** The files a listing (and the listings below it) names, each with the
    response to its download, in the order of the walk. *)
Fixpoint listed_files (l : listing) : list (string * response) :=
  match l with
  | Listing _ entries =>
      flat_map (fun it => match it with
                          | FileItem p file_resp => [(p, file_resp)]
                          | DirItem _ sub => listed_files sub
                          | OtherItem _ => []
                          end) entries
  end.

Definition listed_item (it : item) : list (string * response) :=
  match it with
  | FileItem p file_resp => [(p, file_resp)]
  | DirItem _ sub => listed_files sub
  | OtherItem _ => []
  end.

Definition ok_download (pr : string * response) : bool :=
  status_code (snd pr) =? 200.

(** Every listing request of the walk is answered with 200. *)
Fixpoint listings_ok (l : listing) : bool :=
  match l with
  | Listing list_resp entries =>
      (status_code list_resp =? 200)
      && forallb (fun it => match it with
                            | DirItem _ sub => listings_ok sub
                            | _ => true
                            end) entries
  end.

(** The files that were downloaded: those answered with 200. *)
Definition downloaded (l : listing) : list (string * response) :=
  filter ok_download (listed_files l).

(** A dict is drawn from a list of downloads: its keys are unique and are
    the downloaded paths, and each value is the text of a download of its
    path. *)
Definition drawn_from (src : list (string * response)) (d : pydict) : Prop :=
  NoDup (keys d)
  /\ (forall q, In q (keys d) <-> In q (map fst src))
  /\ (forall q v, In (q, v) d ->
        exists r, In (q, r) src /\ v = PyStr (text r)).

(** A write request that the store accepted. *)
Definition accepted_put (ev : event) : bool :=
  match ev with
  | PutFile _ _ _ put_resp => accepted put_resp
  | _ => false
  end.

(** The response to the last write request among some events. *)
Fixpoint last_put (evs : list event) : option response :=
  match evs with
  | [] => None
  | ev :: rest =>
      match last_put rest with
      | Some later => Some later
      | None => match ev with
                | PutFile _ _ _ put_resp => Some put_resp
                | _ => None
                end
      end
  end.

Definition is_comma (c : ascii) : bool := Ascii.eqb c ","%char.

(** More scenarios. *)
Module Cases.

(** A provider that answers the relevance query with a bare list. *)
Definition bare_list (p : prompt) : completion :=
  Completed (Some "['style.css']").

Definition bare_list_env : env := Demo.base bare_list Scenario.site.

(** A provider that answers in prose, with no literal at all. *)
Definition prose (p : prompt) : completion :=
  Completed (Some "I would edit the stylesheet.").

Definition prose_env : env := Demo.base prose Scenario.site.

(** A store that rejects every write with a conflict. *)
Definition locked : env :=
  {| literal_eval := Literal.literal_eval;
     b64decode := Demo.base64_decode;
     b64decode_error := Demo.base64_error;
     addressed := fun _ p => Demo.url_path p;
     GITHUB_USER := "octo";
     STUDENT_SECRET := Some "s3cret";
     chat_completion := Scenario.two_files;
     post_repo := fun _ => Demo.ok 201 None;
     auto_init := fun _ => [];
     get_contents := fun _ => Scenario.site;
     get_file := Demo.probe;
     put_file := fun _ _ _ _ => Demo.failure 409 "conflict";
     post_pages := fun _ => Demo.ok 201 None;
     post_evaluation := fun _ _ => Demo.ok 200 None |}.

(** A store that accepts the first file of the scenario and rejects the
    second. *)
Definition half_locked : env :=
  {| literal_eval := Literal.literal_eval;
     b64decode := Demo.base64_decode;
     b64decode_error := Demo.base64_error;
     addressed := fun _ p => Demo.url_path p;
     GITHUB_USER := "octo";
     STUDENT_SECRET := Some "s3cret";
     chat_completion := Scenario.two_files;
     post_repo := fun _ => Demo.ok 201 None;
     auto_init := fun _ => [];
     get_contents := fun _ => Scenario.site;
     get_file := Demo.probe;
     put_file := fun _ p _ _ =>
                   if String.eqb (Demo.url_path p) "index.html"
                   then Demo.ok 201 (Some "c0ffee")
                   else Demo.failure 409 "conflict";
     post_pages := fun _ => Demo.ok 201 None;
     post_evaluation := fun _ _ => Demo.ok 200 None |}.

(** A hosting service on which the repository name is taken. *)
Definition name_taken : env :=
  {| literal_eval := Literal.literal_eval;
     b64decode := Demo.base64_decode;
     b64decode_error := Demo.base64_error;
     addressed := fun _ p => Demo.url_path p;
     GITHUB_USER := "octo";
     STUDENT_SECRET := Some "s3cret";
     chat_completion := Scenario.two_files;
     post_repo := fun _ => Demo.failure 422 "name already exists on this account";
     auto_init := fun _ => [];
     get_contents := fun _ => Scenario.no_files;
     get_file := Demo.probe;
     put_file := fun _ _ _ _ => Demo.ok 201 (Some "c0ffee");
     post_pages := fun _ => Demo.ok 201 None;
     post_evaluation := fun _ _ => Demo.ok 200 None |}.

(** An attachment whose URL is no data URI: it has no comma. *)
Definition plain_link : Attachment :=
  {| name := "logo.png"; url := "https://example.org/logo.png" |}.


End Cases.

(** ** Vocabulary of the claims on files *)

(** The attachment names that some keys do not have, each once, in the
    order of their first attachment. *)
Fixpoint new_names (have : list string) (atts : list Attachment) : list string :=
  match atts with
  | [] => []
  | att :: rest =>
      if existsb (String.eqb (name att)) have then new_names have rest
      else name att :: new_names (have ++ [name att]) rest
  end.

(** The paths of the attachment-augmented generated file set, in the
    order of the dict the overlay leaves: the generated keys, then the new
    attachment names. *)
Definition file_set_paths (generated : pydict) (atts : list Attachment)
  : list string :=
  (keys generated ++ new_names (keys generated) atts)%list.

(** The second claim as worded: on a round after the first, every path
    absent from the file set holds after the round what it held before. *)
Definition absent_paths_untouched (E : env) (t : TaskRequest) (w : world)
  : Prop :=
  1 < round t ->
  forall existing atts generated w1,
    _get_repo_files "" (get_contents E (task t)) = Returns existing ->
    attachments t = Some atts ->
    generate_app_code E (task t) (brief t) (checks t) atts (Some existing) w
    = (Returns generated, w1) ->
    forall p, ~ In p (file_set_paths generated atts) ->
      dict_get p (remote (snd (handle_task E t w))) = dict_get p (remote w).




(** * Properties *)

Unset Implicit Arguments.

(** ** Text *)

Lemma append_assoc (a b c : string) : (a ++ b) ++ c = a ++ (b ++ c).
Proof. induction a as [|x a IH]; simpl; [reflexivity | now rewrite IH]. Qed.

Lemma append_nil_r (a : string) : a ++ "" = a.
Proof. induction a as [|x a IH]; simpl; [reflexivity | now rewrite IH]. Qed.

Lemma prefix_append (a b : string) : String.prefix a (a ++ b) = true.
Proof.
  induction a as [|x a IH]; simpl.
  - now destruct b.
  - destruct (ascii_dec x x); [exact IH | congruence].
Qed.

Lemma contains_prefix (s h : string) :
  String.prefix s h = true -> contains s h = true.
Proof. intros H. destruct h; simpl in *; now rewrite H. Qed.

Lemma contains_append (pre s post : string) :
  contains s (pre ++ s ++ post) = true.
Proof.
  induction pre as [|x pre IH].
  - change ("" ++ s ++ post) with (s ++ post).
    apply contains_prefix, prefix_append.
  - cbn [append contains]. rewrite IH. apply orb_true_r.
Qed.

Lemma contains_suffix (pre s : string) : contains s (pre ++ s) = true.
Proof.
  rewrite <- (append_nil_r s) at 2. apply contains_append.
Qed.

Lemma has_char_append (p : ascii -> bool) (a b : string) :
  has_char p (a ++ b) = has_char p a || has_char p b.
Proof.
  induction a as [|x a IH]; simpl; [reflexivity|].
  now rewrite IH, orb_assoc.
Qed.

Lemma is_open_eq (c : ascii) : is_open c = true -> c = "{"%char.
Proof. apply Ascii.eqb_eq. Qed.

Lemma is_close_eq (c : ascii) : is_close c = true -> c = "}"%char.
Proof. apply Ascii.eqb_eq. Qed.

Lemma ends_with_close_split (s : string) :
  ends_with_close s = true -> exists mid, s = mid ++ "}".
Proof.
  induction s as [|c rest IH]; simpl; [discriminate|].
  destruct rest as [|d rest'].
  - intros H. apply is_close_eq in H. subst c. now exists "".
  - intros H. destruct (IH H) as [mid Hmid].
    exists (String c mid). simpl. now rewrite <- Hmid.
Qed.

Lemma brace_delimited_shape (m : string) :
  brace_delimited m = true -> exists mid, m = "{" ++ mid ++ "}".
Proof.
  destruct m as [|c rest]; simpl; [discriminate|].
  intros H. apply andb_prop in H. destruct H as [Ho Hc].
  apply is_open_eq in Ho. subst c.
  destruct (ends_with_close_split _ Hc) as [mid ->]. now exists mid.
Qed.

(** ** The brace pattern *)

Lemma greedy_no_close (s : string) :
  has_char is_close s = false -> Regex.greedy_to_close s = None.
Proof.
  induction s as [|c rest IH]; simpl; [reflexivity|].
  intros H. apply orb_false_elim in H. destruct H as [Hc Hr].
  now rewrite (IH Hr), Hc.
Qed.

Lemma greedy_last_close (mid post : string) :
  has_char is_close post = false ->
  Regex.greedy_to_close (mid ++ "}" ++ post) = Some (mid ++ "}").
Proof.
  intros Hpost. induction mid as [|c mid IH].
  - simpl. now rewrite (greedy_no_close _ Hpost).
  - change (String c mid ++ "}" ++ post) with (String c (mid ++ "}" ++ post)).
    cbn [Regex.greedy_to_close]. now rewrite IH.
Qed.

(** The match starts at the first opening brace and ends at the last
    closing brace. *)
Lemma search_first_to_last (pre mid post : string) :
  has_char is_open pre = false ->
  has_char is_close post = false ->
  Regex.search_braces (pre ++ "{" ++ mid ++ "}" ++ post) = Some ("{" ++ mid ++ "}").
Proof.
  intros Hpre Hpost. induction pre as [|c pre IH].
  - change ("" ++ "{" ++ mid ++ "}" ++ post)
      with (String "{" (mid ++ "}" ++ post)).
    cbn [Regex.search_braces]. change (is_open "{") with true. cbv iota.
    now rewrite (greedy_last_close mid post Hpost).
  - simpl in Hpre. apply orb_false_elim in Hpre. destruct Hpre as [Hc Hr].
    change (String c pre ++ "{" ++ mid ++ "}" ++ post)
      with (String c (pre ++ "{" ++ mid ++ "}" ++ post)).
    cbn [Regex.search_braces]. rewrite Hc. exact (IH Hr).
Qed.

Lemma greedy_none_no_close (s : string) :
  Regex.greedy_to_close s = None -> has_char is_close s = false.
Proof.
  induction s as [|c rest IH]; simpl; [reflexivity|].
  destruct (Regex.greedy_to_close rest); [discriminate|].
  destruct (is_close c); [discriminate|]. intros _. now apply IH.
Qed.

Lemma greedy_sound (s m : string) :
  Regex.greedy_to_close s = Some m ->
  exists mid post, s = mid ++ "}" ++ post /\ m = mid ++ "}"
                   /\ has_char is_close post = false.
Proof.
  revert m. induction s as [|c rest IH]; simpl; [discriminate|].
  intros m. destruct (Regex.greedy_to_close rest) as [m'|] eqn:Hg.
  - intros H. injection H as <-.
    destruct (IH _ eq_refl) as (mid & post & -> & -> & Hp).
    now exists (String c mid), post.
  - destruct (is_close c) eqn:Hc; [|discriminate].
    intros H. injection H as <-. apply is_close_eq in Hc. subst c.
    exists "", rest. repeat split. now apply greedy_none_no_close.
Qed.

(** Whatever the text, a match is the span from its first opening brace
    to its last closing brace. *)
Lemma search_sound (s span : string) :
  Regex.search_braces s = Some span ->
  exists pre mid post,
    s = pre ++ span ++ post /\ span = "{" ++ mid ++ "}"
    /\ has_char is_open pre = false /\ has_char is_close post = false.
Proof.
  revert span. induction s as [|c rest IH]; simpl; [discriminate|].
  intros span. destruct (is_open c) eqn:Hc.
  - destruct (Regex.greedy_to_close rest) as [m|] eqn:Hg.
    + intros H. injection H as <-. apply is_open_eq in Hc. subst c.
      destruct (greedy_sound _ _ Hg) as (mid & post & -> & -> & Hp).
      exists "", mid, post. repeat split; trivial.
      simpl. now rewrite append_assoc.
    + (* no closing brace follows, so no later position matches either *)
      intros H. destruct (IH _ H) as (pre & mid & post & Hs & -> & Ho & Hp).
      apply greedy_none_no_close in Hg. rewrite Hs in Hg.
      rewrite !has_char_append in Hg. simpl in Hg.
      rewrite orb_true_r in Hg. simpl in Hg.
      rewrite orb_true_r in Hg. discriminate.
  - intros H. destruct (IH _ H) as (pre & mid & post & Hs & -> & Ho & Hp).
    subst rest. exists (String c pre), mid, post. repeat split; trivial.
    simpl. now rewrite Hc, Ho.
Qed.

(** ** Dicts *)

Section DictFacts.

Context {V : Type}.

Lemma dict_set_nonempty (k : string) (v : V) (d : dict V) :
  dict_set k v d <> [].
Proof. destruct d as [|[k' v'] d]; simpl; [|destruct (String.eqb k k')]; discriminate. Qed.

Lemma dict_update_nonempty_l (d e : dict V) : d <> [] -> dict_update d e <> [].
Proof.
  unfold dict_update. revert d. induction e as [|[k v] e IH]; simpl; intros d Hd.
  - exact Hd.
  - apply IH, dict_set_nonempty.
Qed.

Lemma dict_of_items_nil (items : list (string * V)) :
  dict_of_items items = [] <-> items = [].
Proof.
  split; [|now intros ->].
  destruct items as [|[k v] items]; [reflexivity|].
  unfold dict_of_items, dict_update. simpl. intros H. exfalso.
  exact (dict_update_nonempty_l [(k, v)] items ltac:(discriminate) H).
Qed.

Lemma dict_get_set_same (k : string) (v : V) (d : dict V) :
  dict_get k (dict_set k v d) = Some v.
Proof.
  induction d as [|[k' v'] d IH]; simpl.
  - now rewrite String.eqb_refl.
  - destruct (String.eqb k k') eqn:Hk; simpl.
    + now rewrite String.eqb_refl.
    + now rewrite Hk.
Qed.

Lemma dict_get_set_other (k k' : string) (v : V) (d : dict V) :
  k' <> k -> dict_get k' (dict_set k v d) = dict_get k' d.
Proof.
  intros Hne. induction d as [|[k0 v0] d IH]; simpl.
  - apply String.eqb_neq in Hne. now rewrite Hne.
  - destruct (String.eqb k k0) eqn:Hk; simpl.
    + apply String.eqb_eq in Hk. subst k0.
      apply String.eqb_neq in Hne. now rewrite Hne.
    + now rewrite IH.
Qed.

Lemma keys_dict_set (k : string) (v : V) (d : dict V) (x : string) :
  In x (keys (dict_set k v d)) <-> x = k \/ In x (keys d).
Proof.
  unfold keys. induction d as [|[k0 v0] d IH]; simpl.
  - intuition.
  - destruct (String.eqb k k0) eqn:Hk; simpl.
    + apply String.eqb_eq in Hk. subst k0. intuition.
    + rewrite IH. intuition.
Qed.

Lemma dict_set_NoDup (k : string) (v : V) (d : dict V) :
  NoDup (keys d) -> NoDup (keys (dict_set k v d)).
Proof.
  unfold keys. induction d as [|[k0 v0] d IH]; simpl; intros Hd.
  - constructor; [intros []|constructor].
  - inversion Hd as [|? ? Hnotin Hd']; subst.
    destruct (String.eqb k k0) eqn:Hk; simpl.
    + apply String.eqb_eq in Hk. subst k0. now constructor.
    + constructor; [|now apply IH].
      intros Hin. apply (keys_dict_set k v d k0) in Hin.
      destruct Hin as [->|Hin]; [|contradiction].
      now rewrite String.eqb_refl in Hk.
Qed.

Lemma dict_update_NoDup (d e : dict V) :
  NoDup (keys d) -> NoDup (keys (dict_update d e)).
Proof.
  unfold dict_update. revert d. induction e as [|[k v] e IH]; simpl; intros d Hd.
  - exact Hd.
  - now apply IH, dict_set_NoDup.
Qed.

Lemma dict_of_items_NoDup (items : list (string * V)) :
  NoDup (keys (dict_of_items items)).
Proof. apply dict_update_NoDup. constructor. Qed.



End DictFacts.

(** ** The extraction of the file mapping *)

Lemma splits_spec (s a b : string) : In (a, b) (splits s) <-> s = a ++ b.
Proof.
  revert a b. induction s as [|c s IH]; intros a b; simpl.
  - split.
    + intros [H|[]]. now injection H as <- <-.
    + intros H. left. destruct a; [|discriminate]. simpl in H. now subst b.
  - split.
    + intros [H|H].
      * now injection H as <- <-.
      * apply in_map_iff in H. destruct H as ([a' b'] & Heq & Hin).
        simpl in Heq. injection Heq as <- <-.
        apply IH in Hin. simpl. now rewrite Hin.
    + intros H. destruct a as [|x a]; simpl in H.
      * left. now subst b.
      * right. injection H as <- ->. apply in_map_iff.
        exists (a, b). split; [reflexivity|]. now apply IH.
Qed.

(** [occurrences] lists exactly the decompositions of the text around a
    mapping literal. *)
Lemma occurrences_spec (E : env) (content pre m post : string) :
  In (pre, m, post) (occurrences E content)
  <-> content = pre ++ m ++ post /\ mapping_literal E m = true.
Proof.
  unfold occurrences. rewrite in_flat_map. split.
  - intros ([a rest] & Hsplit & Hin). simpl in Hin.
    apply in_map_iff in Hin. destruct Hin as ([m' post'] & Heq & Hin).
    simpl in Heq. injection Heq as <- <- <-.
    apply filter_In in Hin. destruct Hin as [Hin Hm]. simpl in Hm.
    apply splits_spec in Hsplit. apply splits_spec in Hin. now subst.
  - intros [-> Hm]. exists (pre, m ++ post). split.
    + now apply splits_spec.
    + simpl. apply in_map_iff. exists (m, post). split; [reflexivity|].
      apply filter_In. split; [now apply splits_spec | exact Hm].
Qed.

(** C1, as amended: when nothing but prose without an opening brace stands
    before a brace-delimited literal mapping and nothing with a closing
    brace after it, the greedy span from the first opening to the last
    closing brace is that literal, and the extractor returns the mapping
    it denotes. *)
Theorem enclosed_mapping_returned (E : env) (pre m post : string)
    (items : list (string * pyval)) :
  brace_delimited m = true ->
  has_char is_open pre = false ->
  has_char is_close post = false ->
  literal_eval E m = Evaluated (PyDict items) ->
  Regex.search_braces (pre ++ m ++ post) = Some m
  /\ extract_files E (Completed (Some (pre ++ m ++ post))) = dict_of_items items.
Proof.
  intros Hm Hpre Hpost Heval.
  destruct (brace_delimited_shape m Hm) as [mid ->].
  assert (Hspan : Regex.search_braces (pre ++ ("{" ++ mid ++ "}") ++ post)
                  = Some ("{" ++ mid ++ "}")).
  { rewrite <- (search_first_to_last pre mid post Hpre Hpost).
    f_equal. f_equal. simpl. now rewrite append_assoc. }
  split; [exact Hspan|].
  unfold extract_files. now rewrite Hspan, Heval.
Qed.

Lemma enclosed_mapping_returned_witness :
  brace_delimited "{'index.html': '<h1>hi</h1>'}" = true
  /\ has_char is_open "Here you go: " = false
  /\ has_char is_close " Enjoy." = false
  /\ extract_files Demo.quiet
       (Completed
          (Some ("Here you go: " ++ "{'index.html': '<h1>hi</h1>'}" ++ " Enjoy.")))
     = [("index.html", PyStr "<h1>hi</h1>")].
Proof.
  repeat (split; [reflexivity|]).
  exact (proj2 (enclosed_mapping_returned Demo.quiet
                  "Here you go: " "{'index.html': '<h1>hi</h1>'}" " Enjoy."
                  [("index.html", PyStr "<h1>hi</h1>")]
                  eq_refl eq_refl eq_refl eq_refl)).
Defined.

(** C1 as worded fails: in ["{x} {'a': 'b'}"] the only mapping literal is
    [{'a': 'b'}], yet the greedy span starts at the first brace, does not
    evaluate, and the reply becomes the error file. *)
Lemma sole_mapping_after_brace_not_returned :
  ~ returns_sole_mapping Demo.quiet "{x} {'a': 'b'}".
Proof.
  intros H.
  specialize (H "{x} " "{'a': 'b'}" "" [("a", PyStr "b")] eq_refl eq_refl).
  vm_compute in H. discriminate H.
Qed.

(** C4, as amended: the file set is empty exactly when the brace-delimited
    span of the reply evaluates to the empty mapping; each of the three
    fallbacks holds one file. *)
Theorem extract_files_empty_iff (E : env) (reply : completion) :
  extract_files E reply = []
  <-> exists content span,
        reply = Completed (Some content)
        /\ Regex.search_braces content = Some span
        /\ literal_eval E span = Evaluated (PyDict []).
Proof.
  split.
  - unfold extract_files, error_txt, error_html.
    destruct reply as [[content|]|e]; try discriminate.
    destruct (Regex.search_braces content) as [span|] eqn:Hs; [|discriminate].
    destruct (literal_eval E span) as [v|msg|e] eqn:He; try discriminate.
    destruct v as [| | | | | |its|]; try discriminate.
    intros H. apply (proj1 (dict_of_items_nil its)) in H. subst its.
    now exists content, span.
  - intros (content & span & -> & Hs & He).
    unfold extract_files. now rewrite Hs, He.
Qed.

(** C4 as worded fails on the reply [{}]. *)
Lemma empty_mapping_reply_is_empty :
  ~ never_empty Demo.quiet (Completed (Some "{}")).
Proof. intros H. apply H. reflexivity. Qed.

(** Supporting C5: a failure that the inner handler catches (a
    [ValueError] or [SyntaxError], or a value that is no dict) yields the
    error file, whose value holds the raw text. *)
Lemma caught_failure_keeps_raw_text (E : env) (content span : string) :
  Regex.search_braces content = Some span ->
  (forall items, literal_eval E span <> Evaluated (PyDict items)) ->
  (forall e, literal_eval E span <> OtherError e) ->
  extract_files E (Completed (Some content)) = error_txt content
  /\ some_value_contains content (error_txt content) = true.
Proof.
  intros Hs Hnd Hno. split.
  - unfold extract_files. rewrite Hs.
    destruct (literal_eval E span) as [v|msg|e] eqn:He; trivial.
    + destruct v as [| | | | | |its|]; trivial. now elim (Hnd its).
    + now elim (Hno e).
  - unfold some_value_contains, error_txt. cbn [existsb snd].
    rewrite orb_false_r.
    exact (contains_suffix
             ("Failed to parse LLM response." ++ nl ++ nl ++ "Raw Content:" ++ nl)
             content).
Qed.

(** Supporting C5: an exception of the evaluation that the inner handler
    does not name ends in the outer handler's error page, which holds the
    exception text. *)
Lemma uncaught_failure_yields_error_page (E : env) (content span : string)
    (e : exn) :
  Regex.search_braces content = Some span ->
  literal_eval E span = OtherError e ->
  extract_files E (Completed (Some content)) = error_html (exn_text e).
Proof. intros Hs He. unfold extract_files. now rewrite Hs, He. Qed.

(** C5 on the reply [Here: {[]: []}]: the span is a dict display whose key
    is a list, evaluation raises [TypeError], the inner handler does not
    catch it, and the outer one returns the error page, which holds the
    exception text and not the raw text. *)
Theorem unhashable_key_drops_raw_text :
  let raw := "Here: {[]: []}" in
  let files := extract_files Demo.quiet (Completed (Some raw)) in
  Regex.search_braces raw = Some "{[]: []}"
  /\ literal_eval Demo.quiet "{[]: []}"
     = OtherError (TypeError "unhashable type: 'list'")
  /\ files = error_html "unhashable type: 'list'"
  /\ some_value_contains raw files = false.
Proof. repeat split. Qed.

(** ** The remote store and the trace *)

Lemma new_events_app (w w' : world) (evs : list event) :
  trace w' = (trace w ++ evs)%list -> new_events w w' = evs.
Proof.
  intros H. unfold new_events. rewrite H.
  rewrite skipn_app, skipn_all, Nat.sub_diag. reflexivity.
Qed.

Lemma put_paths_app (a b : list event) :
  put_paths (a ++ b)%list = (put_paths a ++ put_paths b)%list.
Proof. unfold put_paths. apply flat_map_app. Qed.


(** ** One write *)

(** A write either raises before any request that changes the store (the
    probe was refused, or the content is no bytes), or sends one [PutFile]
    for its path, which the store applies, at the file the path addresses,
    exactly when it accepts it. *)
Lemma upload_or_update_file_effect (E : env) (repo p : string) (content : pyval)
    (w : world) (r : outcome (option string)) (w' : world) :
  upload_or_update_file E repo p content w = (r, w') ->
  ((exists e, r = Raises e) /\ w' = w)
  \/ exists bytes s resp,
       content_bytes_of content = Returns bytes
       /\ trace w' = (trace w ++ [PutFile p bytes s resp])%list
       /\ ((accepted resp = true
            /\ remote w' = dict_set (addressed E repo p) bytes (remote w)
            /\ r = Returns (sha resp))
           \/ (accepted resp = false
               /\ remote w' = remote w
               /\ exists e, r = Raises e)).
Proof.
  unfold upload_or_update_file, bind, read_remote, ret, raise, lift, send,
    write_remote.
  destruct w as [st tr]. cbn [remote trace].
  destruct (status_code (get_file E st p) =? 200) eqn:H200.
  - destruct (content_bytes_of content) as [bytes|e] eqn:Hb.
    + match goal with
      | |- context [put_file E st p bytes ?s] =>
          set (sh := s); set (resp := put_file E st p bytes sh)
      end.
      destruct ((status_code resp =? 200) || (status_code resp =? 201)) eqn:Hacc;
        intros H; injection H as <- <-; right; exists bytes, sh, resp;
        (split; [reflexivity|]); (split; [reflexivity|]).
      * left. unfold accepted. rewrite Hacc. auto.
      * right. unfold accepted. rewrite Hacc. eauto.
    + intros H. injection H as <- <-. left. eauto.
  - destruct (negb (status_code (get_file E st p) =? 404)) eqn:H404.
    + intros H. injection H as <- <-. left. eauto.
    + destruct (content_bytes_of content) as [bytes|e] eqn:Hb.
      * match goal with
        | |- context [put_file E st p bytes ?s] =>
            set (sh := s); set (resp := put_file E st p bytes sh)
        end.
        destruct ((status_code resp =? 200) || (status_code resp =? 201)) eqn:Hacc;
          intros H; injection H as <- <-; right; exists bytes, sh, resp;
          (split; [reflexivity|]); (split; [reflexivity|]).
        -- left. unfold accepted. rewrite Hacc. auto.
        -- right. unfold accepted. rewrite Hacc. eauto.
      * intros H. injection H as <- <-. left. eauto.
Qed.

(** ** The write loop *)

Lemma upload_all_trace (E : env) (repo : string) (items : pydict) :
  forall (latest : option string) (w : world) (r : outcome (option string))
         (w' : world),
    upload_all E repo items latest w = (r, w') ->
    exists evs,
      trace w' = (trace w ++ evs)%list
      /\ Forall (writes_entry_of items) evs
      /\ (forall id, r = Returns id ->
            put_paths evs = keys items
            /\ ((items = [] /\ id = latest)
                \/ exists p c s resp,
                     In (PutFile p c s resp) evs
                     /\ accepted resp = true /\ sha resp = id)).
Proof.
  induction items as [|[p content] rest IH]; intros latest w r w' Hrun.
  - cbn in Hrun. injection Hrun as <- <-. exists []. rewrite app_nil_r.
    split; [reflexivity|]. split; [constructor|].
    intros id H. injection H as <-. auto.
  - cbn [upload_all] in Hrun. unfold bind in Hrun.
    destruct (upload_or_update_file E repo p content w) as [r1 w1] eqn:Hup.
    destruct (upload_or_update_file_effect E repo p content w _ _ Hup)
      as [[[e ->] ->] | (bytes & s & resp & Hb & Htr & Hcase)].
    + injection Hrun as <- <-. exists []. rewrite app_nil_r.
      split; [reflexivity|]. split; [constructor|]. discriminate.
    + assert (Hev : writes_entry_of ((p, content) :: rest)
                      (PutFile p bytes s resp)).
      { exists p, content, bytes, s, resp. repeat split; auto. now left. }
      destruct Hcase as [(Hacc & Hst & ->) | (Hacc & Hst & e & ->)].
      * destruct (IH _ _ _ _ Hrun) as (evs & Htr' & Hall & Hret).
        exists (PutFile p bytes s resp :: evs).
        split; [|split].
        -- rewrite Htr', Htr, <- app_assoc. reflexivity.
        -- constructor; [exact Hev|].
           eapply Forall_impl; [|exact Hall].
           intros ev (p' & c' & b' & s' & resp' & -> & Hin & Hb').
           exists p', c', b', s', resp'. repeat split; auto. now right.
        -- intros id H. destruct (Hret id H) as [Hk Hlast]. split.
           ++ cbn. unfold keys in *. cbn. now f_equal.
           ++ right.
              destruct Hlast as [[-> ->] | (p' & c' & s' & resp' & Hin & Ha & Hs)].
              ** exists p, bytes, s, resp. repeat split; auto. now left.
              ** exists p', c', s', resp'. repeat split; auto. now right.
      * injection Hrun as <- <-. exists [PutFile p bytes s resp].
        split; [exact Htr|]. split; [now constructor|]. discriminate.
Qed.

Lemma upload_all_frame (E : env) (repo : string) (items : pydict) :
  forall (latest : option string) (w : world) (r : outcome (option string))
         (w' : world),
    upload_all E repo items latest w = (r, w') ->
    forall q, ~ In q (targets E repo (keys items)) ->
              dict_get q (remote w') = dict_get q (remote w).
Proof.
  induction items as [|[p content] rest IH]; intros latest w r w' Hrun q Hq.
  - cbn in Hrun. now injection Hrun as <- <-.
  - cbn [upload_all] in Hrun. unfold bind in Hrun.
    destruct (upload_or_update_file E repo p content w) as [r1 w1] eqn:Hup.
    assert (Hqp : q <> addressed E repo p) by (intros ->; apply Hq; now left).
    assert (Hqr : ~ In q (targets E repo (keys rest)))
      by (intros H; apply Hq; now right).
    destruct (upload_or_update_file_effect E repo p content w _ _ Hup)
      as [[[e ->] ->] | (bytes & s & resp & Hb & Htr & Hcase)].
    + now injection Hrun as <- <-.
    + destruct Hcase as [(Hacc & Hst & ->) | (Hacc & Hst & e & ->)].
      * rewrite (IH _ _ _ _ Hrun q Hqr), Hst.
        now apply dict_get_set_other.
      * injection Hrun as <- <-. now rewrite Hst.
Qed.

Lemma upload_all_written (E : env) (repo : string) (items : pydict) :
  forall (latest : option string) (w : world) (id : option string) (w' : world),
    upload_all E repo items latest w = (Returns id, w') ->
    NoDup (targets E repo (keys items)) ->
    forall p content, In (p, content) items ->
      exists bytes, content_bytes_of content = Returns bytes
                    /\ dict_get (addressed E repo p) (remote w') = Some bytes.
Proof.
  induction items as [|[p0 c0] rest IH]; intros latest w id w' Hrun Hnd p content Hin.
  - contradiction.
  - cbn [upload_all] in Hrun. unfold bind in Hrun.
    destruct (upload_or_update_file E repo p0 c0 w) as [r1 w1] eqn:Hup.
    unfold targets, keys in Hnd. cbn in Hnd.
    inversion Hnd as [|? ? Hnotin Hnd']; subst.
    destruct (upload_or_update_file_effect E repo p0 c0 w _ _ Hup)
      as [[[e ->] ->] | (bytes & s & resp & Hb & Htr & Hcase)];
      [discriminate|].
    destruct Hcase as [(Hacc & Hst & ->) | (Hacc & Hst & e & ->)];
      [|discriminate].
    destruct Hin as [Heq|Hin].
    + injection Heq as <- <-. exists bytes. split; [exact Hb|].
      rewrite (upload_all_frame E repo rest _ _ _ _ Hrun _ Hnotin), Hst.
      apply dict_get_set_same.
    + exact (IH _ _ _ _ Hrun Hnd' p content Hin).
Qed.

(** ** Generation *)

Lemma extract_files_NoDup (E : env) (reply : completion) :
  NoDup (keys (extract_files E reply)).
Proof.
  assert (Hone : forall k (v : pyval), NoDup (keys [(k, v)])).
  { intros k v. constructor; [intros []|constructor]. }
  unfold extract_files, error_txt, error_html.
  destruct reply as [[content|]|e]; try apply Hone.
  destruct (Regex.search_braces content) as [span|]; [|apply Hone].
  destruct (literal_eval E span) as [v|msg|e]; try apply Hone.
  destruct v; try apply Hone. apply dict_of_items_NoDup.
Qed.

(** Generation talks to the model provider only: the store is left as it
    was, every event is a model call, and what comes back is a dict. *)
Lemma generate_app_code_effect (E : env) (tn b : string) (c : list string)
    (atts : list Attachment) (ex : option pydict) (w : world)
    (r : outcome pydict) (w' : world) :
  generate_app_code E tn b c atts ex w = (r, w') ->
  remote w' = remote w
  /\ (exists evs, trace w' = (trace w ++ evs)%list
                  /\ forallb is_model_call evs = true)
  /\ (forall g, r = Returns g -> NoDup (keys g)).
Proof.
  unfold generate_app_code, _generate_new_app, _modify_existing_app,
    _llm_filter_relevant_files, _execute_llm_call, bind, send, ret, lift.
  destruct w as [st tr]. cbn [remote trace].
  assert (Hnew : forall p (r0 : outcome pydict) w0,
             (Returns (extract_files E (chat_completion E p)),
              {| remote := st; trace := (tr ++ [ChatCompletion p])%list |})
             = (r0, w0) ->
             remote w0 = st
             /\ (exists evs, trace w0 = (tr ++ evs)%list
                             /\ forallb is_model_call evs = true)
             /\ (forall g, r0 = Returns g -> NoDup (keys g))).
  { intros p r0 w0 H. injection H as <- <-. cbn. split; [reflexivity|]. split.
    - now exists [ChatCompletion p].
    - intros g H. injection H as <-. apply extract_files_NoDup. }
  destruct ex as [[|entry more]|]; [apply Hnew| |apply Hnew].
  match goal with
  | |- context [first_list E ?d ?l] => destruct (first_list E d l) as [rel|e]
  end.
  - match goal with
    | |- context [context_of ?a ?b ?c] => destruct (context_of a b c) as [ctx|e]
    end.
    + intros H. injection H as <- <-. cbn. split; [reflexivity|]. split.
      * eexists [_; _]. rewrite <- app_assoc. split; reflexivity.
      * intros g H. injection H as <-. apply extract_files_NoDup.
    + intros H. injection H as <- <-. cbn. split; [reflexivity|]. split.
      * eexists [_]. split; reflexivity.
      * discriminate.
  - intros H. injection H as <- <-. cbn. split; [reflexivity|]. split.
    + eexists [_]. split; reflexivity.
    + discriminate.
Qed.

(** ** The attachment overlay *)



(** The overlay leaves an attachment at a path exactly when some
    attachment has that name. *)
Lemma last_named_In (p : string) (atts : list Attachment) :
  In p (map name atts) <-> exists att, last_named p atts = Some att.
Proof.
  induction atts as [|a rest IH]; cbn.
  - split; [intros [] | intros [att H]; discriminate].
  - destruct (last_named p rest) as [later|].
    + split; [eauto|]. intros _. right. apply IH. eauto.
    + destruct (String.eqb (name a) p) eqn:Hn.
      * apply String.eqb_eq in Hn. split; [eauto | now left].
      * split.
        -- intros [H|H]; [subst p; now rewrite String.eqb_refl in Hn|].
           apply IH in H. destruct H as [att H]. discriminate.
        -- intros [att H]. discriminate.
Qed.

(** ** The rounds, stage by stage *)

Lemma handle_round_2_run (E : env) (t : TaskRequest) (w : world) :
  _handle_round_2 E t w =
  match _get_repo_files "" (get_contents E (task t)) with
  | Raises e => (Raises e, w)
  | Returns [] =>
      (Raises (Exception "Could not retrieve existing files to modify."), w)
  | Returns (entry :: more) =>
      match attachments t with
      | None => (Raises (TypeError "'NoneType' object is not iterable"), w)
      | Some atts =>
          match generate_app_code E (task t) (brief t) (checks t) atts
                  (@Some pydict (entry :: more)) w with
          | (Raises e, w1) => (Raises e, w1)
          | (Returns generated, w1) =>
              match overlay E atts generated with
              | Raises e => (Raises e, w1)
              | Returns files_to_update =>
                  upload_all E (task t) files_to_update None w1
              end
          end
      end
  end.
Proof.
  unfold _handle_round_2, bind, lift, raise, iter_attachments.
  destruct (_get_repo_files "" (get_contents E (task t))) as [[|entry more]|e];
    try reflexivity.
  destruct (attachments t) as [atts|]; [|reflexivity].
  cbv beta iota zeta.
  destruct (generate_app_code E (task t) (brief t) (checks t) atts
              (@Some pydict (entry :: more)) w) as [[generated|e] w1];
    [|reflexivity].
  destruct (overlay E atts generated); reflexivity.
Qed.

Lemma handle_round_1_run (E : env) (t : TaskRequest) (w : world) :
  _handle_round_1 E t w =
  let w0 := posted (PostRepo (task t)) w in
  if negb (status_code (post_repo E (task t)) =? 201)
  then (Raises (Exception ("Failed to create repo: "
                           ++ text (post_repo E (task t)))), w0)
  else
    let w1 := {| remote := auto_init E (task t); trace := trace w0 |} in
    match attachments t with
    | None => (Raises (TypeError "'NoneType' object is not iterable"), w1)
    | Some atts =>
        match generate_app_code E (task t) (brief t) (checks t) atts None w1 with
        | (Raises e, w2) => (Raises e, w2)
        | (Returns generated, w2) =>
            match overlay E atts generated with
            | Raises e => (Raises e, w2)
            | Returns files_to_upload =>
                match upload_all E (task t) files_to_upload None w2 with
                | (Raises e, w3) => (Raises e, w3)
                | (Returns id, w3) => (Returns id, posted (PostPages (task t)) w3)
                end
            end
        end
    end.
Proof.
  unfold _handle_round_1, bind, lift, raise, send, ret, write_remote, print,
    iter_attachments, posted.
  cbn [remote trace].
  destruct (negb (status_code (post_repo E (task t)) =? 201)); [reflexivity|].
  cbn [remote trace].
  destruct (attachments t) as [atts|]; [|reflexivity].
  cbv beta iota zeta.
  match goal with
  | |- context [generate_app_code E ?a ?b ?c ?d ?e ?f] =>
      destruct (generate_app_code E a b c d e f) as [[generated|e0] w2]
  end; [|reflexivity].
  destruct (overlay E atts generated) as [fs|e0]; [|reflexivity].
  destruct (upload_all E (task t) fs None w2) as [[id|e0] w3]; [|reflexivity].
  cbn [remote trace].
  destruct (negb ((status_code (post_pages E (task t)) =? 201)
                  || (status_code (post_pages E (task t)) =? 204)));
    reflexivity.
Qed.

Lemma handle_task_run (E : env) (t : TaskRequest) (w : world) :
  handle_task E t w =
  match dispatch E t w with
  | (Raises e, w1) => (Raises e, w1)
  | (Returns id, w1) =>
      if negb (truthy id)
      then (Raises (Exception "Failed to retrieve a valid commit SHA."), w1)
      else
        let payload := notification E t id in
        let w2 := posted (PostEvaluation (evaluation_url t) payload) w1 in
        if negb (status_code (post_evaluation E (evaluation_url t) payload) =? 200)
        then (Raises (Exception
                        ("Evaluation notification failed: "
                         ++ text (post_evaluation E (evaluation_url t) payload))),
              w2)
        else (Returns tt, w2)
  end.
Proof.
  unfold handle_task, dispatch, bind.
  destruct ((if round t =? 1 then _handle_round_1 E t
             else if round t >? 1 then _handle_round_2 E t
                  else raise (Exception ("Unknown round: " ++ str_of_int (round t))))
              w) as [[id|e] w1]; [|reflexivity].
  destruct (negb (truthy id)); [reflexivity|].
  unfold send, raise, ret, notification, posted. cbn.
  match goal with
  | |- context [negb (status_code ?r =? 200)] =>
      destruct (negb (status_code r =? 200))
  end; reflexivity.
Qed.

(** ** Events of a round *)

Lemma model_calls_plain (evs : list event) :
  forallb is_model_call evs = true -> forallb is_plain evs = true.
Proof.
  induction evs as [|ev evs IH]; cbn; [reflexivity|].
  intros H. apply andb_prop in H. destruct H as [Hev Hevs].
  rewrite (IH Hevs). now destruct ev.
Qed.

Lemma plain_no_notification (evs : list event) :
  forallb is_plain evs = true -> existsb is_notification evs = false.
Proof.
  induction evs as [|ev evs IH]; cbn; [reflexivity|].
  intros H. apply andb_prop in H. destruct H as [Hev Hevs].
  rewrite (IH Hevs). now destruct ev.
Qed.

Lemma plain_no_put (evs : list event) :
  forallb is_plain evs = true -> put_paths evs = [].
Proof.
  induction evs as [|ev evs IH]; [reflexivity|]. cbn [forallb].
  intros H. apply andb_prop in H. destruct H as [Hev Hevs].
  unfold put_paths in *. cbn [flat_map]. rewrite (IH Hevs).
  destruct ev; try reflexivity; discriminate.
Qed.

Lemma plain_not_identified (evs : list event) :
  forallb is_plain evs = true -> existsb identified_write evs = false.
Proof.
  induction evs as [|ev evs IH]; cbn; [reflexivity|].
  intros H. apply andb_prop in H. destruct H as [Hev Hevs].
  rewrite (IH Hevs). now destruct ev.
Qed.

Lemma plain_In_put (evs : list event) (p c : string) (s : option string)
    (resp : response) :
  forallb is_plain evs = true -> ~ In (PutFile p c s resp) evs.
Proof.
  intros H Hin. rewrite forallb_forall in H. specialize (H _ Hin). discriminate.
Qed.

Lemma writes_no_notification (items : pydict) (evs : list event) :
  Forall (writes_entry_of items) evs -> existsb is_notification evs = false.
Proof.
  induction 1 as [|ev evs Hev _ IH]; cbn; [reflexivity|].
  rewrite IH. destruct Hev as (p & c & b & s & resp & -> & _). reflexivity.
Qed.

(** The stages of the selected round handler: either it raises before the
    write loop, having sent no write and no notification, or it reaches
    the loop with the overlaid file set, and nothing but the loop writes. *)
Lemma dispatch_stages (E : env) (t : TaskRequest) (w : world)
    (r : outcome (option string)) (w' : world) :
  dispatch E t w = (r, w') ->
  ((exists e, r = Raises e)
   /\ exists evs, trace w' = (trace w ++ evs)%list
                  /\ forallb is_plain evs = true)
  \/ exists atts generated fs w1 w3 pre post,
       attachments t = Some atts
       /\ NoDup (keys generated)
       /\ overlay E atts generated = Returns fs
       /\ upload_all E (task t) fs None w1 = (r, w3)
       /\ trace w1 = (trace w ++ pre)%list
       /\ forallb is_plain pre = true
       /\ trace w' = (trace w3 ++ post)%list
       /\ forallb is_plain post = true
       /\ remote w' = remote w3.
Proof.
  unfold dispatch. destruct (round t =? 1) eqn:H1; [|destruct (round t >? 1) eqn:H2].
  - (* round 1 *)
    rewrite handle_round_1_run. cbv zeta.
    destruct (negb (status_code (post_repo E (task t)) =? 201)).
    { raised_before_loop [PostRepo (task t)]. split; reflexivity. }
    destruct (attachments t) as [atts|].
    2:{ raised_before_loop [PostRepo (task t)]. split; reflexivity. }
    match goal with
    | |- context [generate_app_code E ?a ?b ?c ?d ?e ?f] =>
        destruct (generate_app_code E a b c d e f) as [[generated|e0] w2] eqn:Hgen
    end;
      destruct (generate_app_code_effect _ _ _ _ _ _ _ _ _ Hgen)
        as (_ & (evs & Htr & Hev) & Hnd);
      assert (Hpre : trace w2 = (trace w ++ PostRepo (task t) :: evs)%list)
        by (rewrite Htr; cbn; now rewrite <- app_assoc);
      assert (Hplain : forallb is_plain (PostRepo (task t) :: evs) = true)
        by (cbn; now apply model_calls_plain).
    2:{ raised_before_loop (PostRepo (task t) :: evs). now split. }
    destruct (overlay E atts generated) as [fs|e0] eqn:Hov.
    2:{ raised_before_loop (PostRepo (task t) :: evs). now split. }
    destruct (upload_all E (task t) fs None w2) as [[id|e0] w3] eqn:Hup;
      intros H; injection H as <- <-; right;
      exists atts, generated, fs, w2, w3, (PostRepo (task t) :: evs).
    + exists [PostPages (task t)]. repeat split; auto.
    + exists []. repeat split; auto. now rewrite app_nil_r.
  - (* a later round *)
    rewrite handle_round_2_run.
    destruct (_get_repo_files "" (get_contents E (task t))) as [[|entry more]|e0].
    1,3: raised_before_loop (@nil event); now rewrite app_nil_r.
    destruct (attachments t) as [atts|].
    2:{ raised_before_loop (@nil event). now rewrite app_nil_r. }
    destruct (generate_app_code E (task t) (brief t) (checks t) atts
                (@Some pydict (entry :: more)) w) as [[generated|e0] w1] eqn:Hgen;
      destruct (generate_app_code_effect _ _ _ _ _ _ _ _ _ Hgen)
        as (_ & (evs & Htr & Hev) & Hnd);
      apply model_calls_plain in Hev.
    2:{ raised_before_loop evs. now split. }
    destruct (overlay E atts generated) as [fs|e0] eqn:Hov.
    2:{ raised_before_loop evs. now split. }
    intros Hup. right. exists atts, generated, fs, w1, w', evs, [].
    repeat split; auto. now rewrite app_nil_r.
  - (* no such round *)
    raised_before_loop (@nil event). now rewrite app_nil_r.
Qed.

(** What [handle_task] adds to the selected handler: nothing when it
    raises on the handler's failure or on a missing identifier, one
    notification otherwise. *)
Lemma handle_task_stages (E : env) (t : TaskRequest) (w : world)
    (r : outcome unit) (w' : world) :
  handle_task E t w = (r, w') ->
  exists r1 w1,
    dispatch E t w = (r1, w1)
    /\ remote w' = remote w1
    /\ (((exists e, r = Raises e) /\ w' = w1
         /\ forall id, r1 = Returns id -> truthy id = false)
        \/ exists id payload,
             r1 = Returns id /\ truthy id = true
             /\ trace w' = (trace w1 ++ [PostEvaluation (evaluation_url t) payload])%list).
Proof.
  rewrite handle_task_run.
  destruct (dispatch E t w) as [[id|e] w1] eqn:Hd.
  - destruct (truthy id) eqn:Hid; cbn [negb]; cbv zeta.
    + destruct (negb (status_code (post_evaluation E (evaluation_url t)
                                     (notification E t id)) =? 200));
        intros H; injection H as <- <-; exists (Returns id), w1;
        (split; [reflexivity|]); (split; [reflexivity|]); right;
        exists id, (notification E t id); auto.
    + intros H. injection H as <- <-. exists (Returns id), w1.
      split; [reflexivity|]. split; [reflexivity|]. left.
      split; [eauto|]. split; [reflexivity|].
      intros id' H. now injection H as <-.
  - intros H. injection H as <- <-. exists (Raises e), w1.
    split; [reflexivity|]. split; [reflexivity|]. left.
    split; [eauto|]. split; [reflexivity|]. discriminate.
Qed.

(** ** Claims about the rounds *)

(** C10: on a round after the first, an empty snapshot makes the round
    raise at once: the world is left exactly as it was, so no model call
    (of the synthesis path or any other), no write and no notification
    was made. *)
Theorem empty_snapshot_aborts_before_model (E : env) (t : TaskRequest)
    (w : world) :
  1 < round t ->
  _get_repo_files "" (get_contents E (task t)) = Returns [] ->
  handle_task E t w
  = (Raises (Exception "Could not retrieve existing files to modify."), w)
  /\ existsb is_model_call (new_events w (snd (handle_task E t w))) = false.
Proof.
  intros Hround Hsnap.
  assert (Hrun : handle_task E t w
                 = (Raises (Exception "Could not retrieve existing files to modify."), w)).
  { rewrite handle_task_run. unfold dispatch.
    replace (round t =? 1) with false by (symmetry; apply Z.eqb_neq; lia).
    replace (round t >? 1) with true by (symmetry; apply Z.gtb_lt; lia).
    rewrite handle_round_2_run, Hsnap. reflexivity. }
  split; [exact Hrun|].
  rewrite Hrun. cbn [snd].
  rewrite (new_events_app w w []); [reflexivity | now rewrite app_nil_r].
Qed.

Lemma empty_snapshot_aborts_before_model_witness :
  1 < round (Scenario.request 2 [])
  /\ _get_repo_files "" (get_contents Scenario.unreadable "demo-app") = Returns []
  /\ handle_task Scenario.unreadable (Scenario.request 2 []) Scenario.published
     = (Raises (Exception "Could not retrieve existing files to modify."),
        Scenario.published).
Proof.
  split; [reflexivity|]. split; [reflexivity|].
  exact (proj1 (empty_snapshot_aborts_before_model Scenario.unreadable
                  (Scenario.request 2 []) Scenario.published
                  eq_refl eq_refl)).
Defined.

(** C8: [handle_task] returns only when some write was accepted and came
    back with a valid identifier; when no write did, it raises and the
    evaluation sink is not notified. *)
Theorem success_needs_identified_write (E : env) (t : TaskRequest) (w : world)
    (r : outcome unit) (w' : world) :
  handle_task E t w = (r, w') ->
  (r = Returns tt -> existsb identified_write (new_events w w') = true)
  /\ (existsb identified_write (new_events w w') = false ->
      (exists e, r = Raises e)
      /\ existsb is_notification (new_events w w') = false).
Proof.
  intros Hrun.
  destruct (handle_task_stages E t w r w' Hrun)
    as (r1 & w1 & Hd & _ & Hcase).
  destruct (dispatch_stages E t w r1 w1 Hd)
    as [[[e ->] (evs & Htr & Hplain)]
       | (atts & generated & fs & w2 & w3 & pre & post
          & _ & _ & _ & Hup & Hpre & Hplain_pre & Hpost & Hplain_post & _)].
  - (* the handler raised before the loop *)
    destruct Hcase as [([e' ->] & -> & _) | (id & payload & Hr & _)];
      [|discriminate].
    rewrite (new_events_app w w1 evs Htr).
    split; [discriminate|]. intros _. split; [eauto|].
    now apply plain_no_notification.
  - destruct (upload_all_trace E (task t) fs None w2 r1 w3 Hup)
      as (puts & Hputs & Hall & Hret).
    assert (Hw1 : trace w1 = (trace w ++ pre ++ puts ++ post)%list).
    { rewrite Hpost, Hputs, Hpre. now rewrite <- !app_assoc. }
    destruct Hcase as [([e' ->] & -> & Hfalsy) | (id & payload & -> & Hid & Hnote)].
    + rewrite (new_events_app w w1 _ Hw1).
      split; [discriminate|]. intros _. split; [eauto|].
      rewrite !existsb_app.
      rewrite (plain_no_notification pre Hplain_pre),
        (plain_no_notification post Hplain_post),
        (writes_no_notification fs puts Hall).
      reflexivity.
    + assert (Hident : existsb identified_write (new_events w w') = true).
      { rewrite (new_events_app w w'
                   ((pre ++ puts ++ post)
                    ++ [PostEvaluation (evaluation_url t) payload])%list)
          by (rewrite Hnote, Hw1; now rewrite <- !app_assoc).
        destruct (Hret id eq_refl) as [_ [[_ Hnone] | (p & c & s & resp & Hin & Hacc & Hsha)]].
        - subst id. discriminate.
        - rewrite !existsb_app. apply orb_true_iff. left.
          apply orb_true_iff. right. apply orb_true_iff. left.
          apply existsb_exists. exists (PutFile p c s resp).
          split; [exact Hin|]. cbn. now rewrite Hacc, Hsha, Hid. }
      split; [intros _; exact Hident|].
      intros H. rewrite Hident in H. discriminate.
Qed.

Lemma success_needs_identified_write_witness :
  extract_files Scenario.empty_reply (Completed (Some "{}")) = []
  /\ existsb identified_write
       (new_events Scenario.fresh
          (snd (handle_task Scenario.empty_reply (Scenario.request 1 [])
                  Scenario.fresh))) = false
  /\ (exists e, fst (handle_task Scenario.empty_reply (Scenario.request 1 [])
                       Scenario.fresh) = Raises e)
  /\ existsb is_notification
       (new_events Scenario.fresh
          (snd (handle_task Scenario.empty_reply (Scenario.request 1 [])
                  Scenario.fresh))) = false.
Proof.
  split; [reflexivity|]. split; [reflexivity|].
  exact (proj2 (success_needs_identified_write Scenario.empty_reply
                  (Scenario.request 1 []) Scenario.fresh _ _ eq_refl)
           eq_refl).
Defined.

(** C7, as amended: the answer of the hosting service has no bearing on
    the round; with any other hosting service [handle_task] ends the same
    way, in the same world. *)
Theorem hosting_response_ignored (E : env) (f : string -> response)
    (t : TaskRequest) (w : world) :
  handle_task (with_post_pages f E) t w = handle_task E t w.
Proof.
  rewrite !handle_task_run. unfold dispatch.
  assert (H1 : _handle_round_1 (with_post_pages f E) t w = _handle_round_1 E t w).
  { rewrite !handle_round_1_run. reflexivity. }
  assert (H2 : _handle_round_2 (with_post_pages f E) t w = _handle_round_2 E t w).
  { rewrite !handle_round_2_run. reflexivity. }
  destruct (round t =? 1); [rewrite H1; reflexivity|].
  destruct (round t >? 1); [rewrite H2|]; reflexivity.
Qed.

(** C7 as worded fails: with the hosting service answering 500, round 1
    of the scenario still returns and notifies the evaluation sink. *)
Lemma hosting_failure_not_fatal :
  ~ hosting_failure_fatal Scenario.pages_down (Scenario.request 1 [])
      Scenario.fresh.
Proof.
  intros H.
  destruct (H eq_refl) as [[e He] _].
  - vm_compute. tauto.
  - reflexivity.
  - vm_compute in He. discriminate He.
Qed.

Lemma later_round_dispatch (E : env) (t : TaskRequest) :
  1 < round t -> dispatch E t = _handle_round_2 E t.
Proof.
  intros H. unfold dispatch.
  replace (round t =? 1) with false by (symmetry; apply Z.eqb_neq; lia).
  now replace (round t >? 1) with true by (symmetry; apply Z.gtb_lt; lia).
Qed.

(** ** The store changes only where a write was sent *)

Lemma upload_all_changes_written_paths (E : env) (repo : string) (items : pydict) :
  forall (latest : option string) (w : world) (r : outcome (option string))
         (w' : world),
    upload_all E repo items latest w = (r, w') ->
    forall q, ~ In q (targets E repo (put_paths (new_events w w'))) ->
              dict_get q (remote w') = dict_get q (remote w).
Proof.
  induction items as [|[p content] rest IH]; intros latest w r w' Hrun q Hq.
  - cbn in Hrun. now injection Hrun as <- <-.
  - cbn [upload_all] in Hrun. unfold bind in Hrun.
    destruct (upload_or_update_file E repo p content w) as [r1 w1] eqn:Hup.
    destruct (upload_or_update_file_effect E repo p content w _ _ Hup)
      as [[[e ->] ->] | (bytes & s & resp & Hb & Htr & Hcase)].
    + now injection Hrun as <- <-.
    + destruct Hcase as [(Hacc & Hst & ->) | (Hacc & Hst & e & ->)].
      * destruct (upload_all_trace E repo rest _ _ _ _ Hrun) as (evs & Htr' & _).
        rewrite (new_events_app w w' (PutFile p bytes s resp :: evs)) in Hq
          by (rewrite Htr', Htr, <- app_assoc; reflexivity).
        rewrite (IH _ _ _ _ Hrun q), Hst.
        -- apply dict_get_set_other. intros ->. apply Hq. now left.
        -- rewrite (new_events_app w1 w' evs Htr').
           intros Hin. apply Hq. cbn. now right.
      * injection Hrun as <- <-. now rewrite Hst.
Qed.

(** X26, supporting C2: on a round after the first, whatever stage the
    round reaches, a file that no write request of the round addresses
    holds what it held. *)
Lemma later_round_changes_only_written_paths (E : env) (t : TaskRequest)
    (w : world) (r : outcome unit) (w' : world) :
  1 < round t ->
  handle_task E t w = (r, w') ->
  forall p, ~ In p (targets E (task t) (put_paths (new_events w w'))) ->
            dict_get p (remote w') = dict_get p (remote w).
Proof.
  intros Hround Hrun p Hp.
  destruct (handle_task_stages E t w r w' Hrun)
    as (r1 & w2 & Hd & Hremote & Hcase).
  rewrite Hremote.
  rewrite (later_round_dispatch E t Hround), handle_round_2_run in Hd.
  destruct (_get_repo_files "" (get_contents E (task t))) as [[|entry more]|e0];
    try (now injection Hd as <- <-).
  destruct (attachments t) as [atts|]; [|now injection Hd as <- <-].
  destruct (generate_app_code E (task t) (brief t) (checks t) atts
              (@Some pydict (entry :: more)) w) as [[generated|e0] w1] eqn:Hgen;
    destruct (generate_app_code_effect _ _ _ _ _ _ _ _ _ Hgen)
      as (Hst1 & (chats & Htr1 & Hchat) & _);
    [|injection Hd as <- <-; now rewrite Hst1].
  destruct (overlay E atts generated) as [fs|e0];
    [|injection Hd as <- <-; now rewrite Hst1].
  destruct (upload_all_trace E (task t) fs None w1 r1 w2 Hd)
    as (puts & Hputs & _).
  rewrite <- Hst1.
  apply (upload_all_changes_written_paths E (task t) fs None w1 r1 w2 Hd).
  rewrite (new_events_app w1 w2 puts Hputs).
  intros Hin. apply Hp.
  assert (Hplain : put_paths chats = [])
    by (apply plain_no_put; now apply model_calls_plain).
  destruct Hcase as [(_ & -> & _) | (id & payload & _ & _ & Hnote)].
  - rewrite (new_events_app w w2 (chats ++ puts)%list)
      by (rewrite Hputs, Htr1; now rewrite <- app_assoc).
    now rewrite put_paths_app, Hplain.
  - rewrite (new_events_app w w'
               ((chats ++ puts)
                ++ [PostEvaluation (evaluation_url t) payload])%list)
      by (rewrite Hnote, Hputs, Htr1; now rewrite <- !app_assoc).
    rewrite !put_paths_app, Hplain. cbn [app]. unfold targets.
    rewrite map_app. apply in_or_app. now left.
Qed.

(** The trace only grows: what [handle_task] leaves is the old trace
    followed by the new events. *)
Lemma handle_task_extends (E : env) (t : TaskRequest) (w : world)
    (r : outcome unit) (w' : world) :
  handle_task E t w = (r, w') ->
  trace w' = (trace w ++ new_events w w')%list.
Proof.
  intros Hrun.
  assert (H : exists evs, trace w' = (trace w ++ evs)%list).
  { destruct (handle_task_stages E t w r w' Hrun)
      as (r1 & w1 & Hd & _ & Hcase).
    assert (H1 : exists evs, trace w1 = (trace w ++ evs)%list).
    { destruct (dispatch_stages E t w r1 w1 Hd)
        as [[_ (evs & Htr & _)]
           | (atts & generated & fs & w2 & w3 & pre & post
              & _ & _ & _ & Hup & Hpre & _ & Hpost & _ & _)].
      - now exists evs.
      - destruct (upload_all_trace E (task t) fs None w2 r1 w3 Hup)
          as (puts & Hputs & _).
        exists (pre ++ puts ++ post)%list.
        rewrite Hpost, Hputs, Hpre. now rewrite <- !app_assoc. }
    destruct H1 as [evs Hevs].
    destruct Hcase as [(_ & -> & _) | (id & payload & _ & _ & Hnote)].
    - now exists evs.
    - eexists. rewrite Hnote, Hevs, <- app_assoc. reflexivity. }
  destruct H as [evs Hevs]. now rewrite (new_events_app w w' evs Hevs).
Qed.

(** Supporting C6: when no value of the response dict evaluates to a list
    and every failed evaluation is one the loop catches, the filter falls
    back to the whole path list. *)
Lemma relevance_fallback_when_caught (E : env) (items : pydict)
    (file_list : list string) :
  (forall k v l, In (k, v) items -> literal_eval_value E v <> Evaluated (PyList l)) ->
  (forall k v e, In (k, v) items -> literal_eval_value E v <> OtherError e) ->
  first_list E items file_list = Returns (map PyStr file_list).
Proof.
  induction items as [|[k v] rest IH]; intros Hnl Hne; cbn; [reflexivity|].
  assert (Hrest : first_list E rest file_list = Returns (map PyStr file_list)).
  { apply IH; intros; [eapply Hnl | eapply Hne]; right; eassumption. }
  destruct (literal_eval_value E v) as [x|msg|e] eqn:Hv; trivial.
  - destruct x; trivial. now elim (Hnl k v l (or_introl eq_refl)).
  - now elim (Hne k v e (or_introl eq_refl)).
Qed.

(** C6 on the relevance answer [{'files': '{[]: []}'}]: the reply is
    a well-formed mapping, its one value is a dict display with a list as
    key, evaluating it raises [TypeError], which the loop does not catch:
    the filter raises instead of returning the path list, and the round
    it serves ends with no write and no notification. *)
Theorem unhashable_relevance_answer_raises :
  let paths := ["index.html"; "style.css"] in
  let query := RelevanceQuery "change the button color" paths in
  extract_files Scenario.unhashable_relevance (Scenario.unhashable query)
  = [("files", PyStr "{[]: []}")]
  /\ _llm_filter_relevant_files Scenario.unhashable_relevance
       "change the button color" paths Scenario.fresh
     = (Raises (TypeError "unhashable type: 'list'"),
        posted (ChatCompletion query) Scenario.fresh)
  /\ fst (handle_task Scenario.unhashable_relevance (Scenario.request 2 [])
            Scenario.published)
     = Raises (TypeError "unhashable type: 'list'")
  /\ forallb is_plain
       (new_events Scenario.published
          (snd (handle_task Scenario.unhashable_relevance
                  (Scenario.request 2 []) Scenario.published))) = true.
Proof. repeat split. Qed.

(** ** The scenarios of the specification, run *)

Example search_spans_first_to_last :
  Regex.search_braces ("a}b{c" ++ nl ++ "{d}e}f{") = Some ("{c" ++ nl ++ "{d}e}").
Proof. reflexivity. Qed.

Example search_needs_open_before_close : Regex.search_braces "}{" = None.
Proof. reflexivity. Qed.

Example no_brace_reply_kept_whole :
  extract_files Demo.quiet (Completed (Some "just prose"))
  = [("index.html", PyStr "just prose")].
Proof. reflexivity. Qed.

Example duplicate_key_keeps_last_value :
  extract_files Demo.quiet (Completed (Some "{'a': 'x', 'b': 'y', 'a': 'z'}"))
  = [("a", PyStr "z"); ("b", PyStr "y")].
Proof. reflexivity. Qed.

Example data_uri_payload :
  decode_attachment Scenario.modification Scenario.stylesheet
  = Returns (PyBytes "hello").
Proof. reflexivity. Qed.

Example snapshot_walks_directories :
  _get_repo_files "" Scenario.site
  = Returns [("index.html", PyStr "<h1>todo</h1>");
             ("style.css", PyStr "button {}");
             ("docs/README.md", PyStr "# demo-app")].
Proof. reflexivity. Qed.

(** Round 1: both files are written, hosting is requested, and the sink
    receives the identifier of the last write. *)
Example creation_round :
  let run := handle_task Scenario.creation (Scenario.request 1 []) Scenario.fresh in
  fst run = Returns tt
  /\ put_paths (trace (snd run)) = ["index.html"; "README.md"]
  /\ In (PostPages "demo-app") (trace (snd run))
  /\ exists payload,
       last (trace (snd run)) (PostPages "")
       = PostEvaluation "https://eval.example/notify" payload
       /\ commit_sha payload = Some "c0ffee".
Proof.
  cbv zeta. split; [reflexivity|]. split; [reflexivity|]. split.
  - vm_compute. tauto.
  - eexists. split; reflexivity.
Qed.

(** Round 2: the relevance answer narrows the context to two files, the
    modification answer holds [style.css] only, and only that path is
    written. *)
Example modification_round :
  let run := handle_task Scenario.modification (Scenario.request 2 [])
               Scenario.published in
  fst run = Returns tt
  /\ put_paths (trace (snd run)) = ["style.css"]
  /\ remote (snd run)
     = [("index.html", "<h1>todo</h1>"); ("style.css", "button { color: red }");
        ("docs/README.md", "# demo-app")].
Proof. vm_compute. repeat split. Qed.

(** Round 0 is rejected before any model or store call. *)
Example malformed_round :
  handle_task Scenario.creation (Scenario.request 0 []) Scenario.fresh
  = (Raises (Exception "Unknown round: 0"), Scenario.fresh).
Proof. reflexivity. Qed.

(** * Further properties of the code *)

(** ** [_execute_llm_call]: the span and the fallbacks *)

Lemma open_then_close_no_open (s : string) :
  has_char is_open s = false -> open_then_close s = false.
Proof.
  induction s as [|c rest IH]; simpl; [reflexivity|].
  intros H. apply orb_false_elim in H. destruct H as [Hc Hr].
  now rewrite Hc, (IH Hr).
Qed.

Lemma open_then_close_no_close (s : string) :
  has_char is_close s = false -> open_then_close s = false.
Proof.
  induction s as [|c rest IH]; simpl; [reflexivity|].
  intros H. apply orb_false_elim in H. destruct H as [Hc Hr].
  now rewrite Hr, (IH Hr), andb_false_r.
Qed.

(** X1: the pattern finds no span exactly when no opening brace of the
    text has a closing brace after it; braces in the other order do not
    count. *)
Theorem search_none_iff (s : string) :
  Regex.search_braces s = None <-> open_then_close s = false.
Proof.
  induction s as [|c rest IH]; simpl; [tauto|].
  destruct (is_open c); simpl.
  - destruct (Regex.greedy_to_close rest) as [m|] eqn:Hg.
    + split; [discriminate|]. intros H. apply orb_false_elim in H.
      rewrite (greedy_no_close rest (proj1 H)) in Hg. discriminate.
    + rewrite (greedy_none_no_close rest Hg). exact IH.
  - exact IH.
Qed.

Lemma no_pair_no_span (s : string) :
  open_then_close s = false -> Regex.search_braces s = None.
Proof.
  induction s as [|c rest IH]; simpl; [reflexivity|].
  intros H. apply orb_false_elim in H. destruct H as [Hc Hr].
  destruct (is_open c); simpl in Hc.
  - now rewrite (greedy_no_close rest Hc), (IH Hr).
  - exact (IH Hr).
Qed.

Lemma no_span_fallback (E : env) (content : string) :
  open_then_close content = false ->
  extract_files E (Completed (Some content)) = [("index.html", PyStr content)].
Proof.
  intros H. unfold extract_files. now rewrite (no_pair_no_span content H).
Qed.

(** X2: a reply in which no opening brace is followed by a closing one (in
    particular one with no opening or no closing brace at all) comes back
    whole, as the one file [index.html]. *)
Theorem reply_without_span_kept_whole (E : env) (content : string) :
  has_char is_open content = false \/ has_char is_close content = false
  \/ open_then_close content = false ->
  extract_files E (Completed (Some content)) = [("index.html", PyStr content)].
Proof.
  intros H.
  assert (Hotc : open_then_close content = false).
  { destruct H as [H|[H|H]]; auto using open_then_close_no_open,
      open_then_close_no_close. }
  exact (no_span_fallback E content Hotc).
Qed.

Lemma reply_without_span_kept_whole_witness :
  has_char is_open "} then {" = true
  /\ has_char is_close "} then {" = true
  /\ extract_files Demo.quiet (Completed (Some "} then {"))
     = [("index.html", PyStr "} then {")].
Proof.
  split; [reflexivity|]. split; [reflexivity|].
  exact (reply_without_span_kept_whole Demo.quiet "} then {"
           (or_intror (or_intror eq_refl))).
Defined.

(** X3: what the pattern matches.  A text has a match exactly when it
    splits into a part without opening brace, the match, and a part
    without closing brace; the match is then that one span, from the first
    opening brace of the text to its last closing brace, line breaks and
    inner braces included. *)
Theorem span_is_first_open_to_last_close (s span : string) :
  Regex.search_braces s = Some span
  <-> exists pre mid post,
        s = pre ++ span ++ post /\ span = "{" ++ mid ++ "}"
        /\ has_char is_open pre = false /\ has_char is_close post = false.
Proof.
  split; [apply search_sound|].
  intros (pre & mid & post & -> & -> & Hpre & Hpost).
  rewrite <- (search_first_to_last pre mid post Hpre Hpost).
  f_equal. f_equal. cbn. now rewrite append_assoc.
Qed.

(** ** [_llm_filter_relevant_files] *)

(** X4: the loop returns the first value that evaluates to a list,
    whatever follows it, provided the values before it are ones it goes
    past. *)
Theorem first_list_returns_first (E : env) (before after : pydict)
    (k : string) (v : pyval) (l : list pyval) (file_list : list string) :
  forallb (fun kv => skipped_by_filter (literal_eval_value E (snd kv))) before
  = true ->
  literal_eval_value E v = Evaluated (PyList l) ->
  first_list E (before ++ (k, v) :: after)%list file_list = Returns l.
Proof.
  intros Hskip Hv. induction before as [|[k0 v0] before IH]; cbn.
  - now rewrite Hv.
  - cbn in Hskip. apply andb_prop in Hskip. destruct Hskip as [H0 Hrest].
    destruct (literal_eval_value E v0) as [x|msg|e]; cbn in H0.
    + destruct x; try discriminate; now apply IH.
    + now apply IH.
    + discriminate.
Qed.

Lemma first_list_returns_first_witness :
  first_list Demo.quiet
    ([("note", PyStr "not a literal"); ("n", PyInt 3)]
     ++ ("files", PyStr "['a.css']") :: [("more", PyStr "['b.css']")])%list
    ["a.css"; "b.css"; "c.css"]
  = Returns [PyStr "a.css"].
Proof.
  exact (first_list_returns_first Demo.quiet
           [("note", PyStr "not a literal"); ("n", PyInt 3)]
           [("more", PyStr "['b.css']")] "files" (PyStr "['a.css']")
           [PyStr "a.css"] ["a.css"; "b.css"; "c.css"] eq_refl eq_refl).
Defined.

(** X5: the intended exchange.  When the model answers the relevance query
    with nothing but a list literal, the extractor finds no span and keeps
    the reply whole, the filter evaluates it, and that list is the
    selection; one model call was made and nothing else. *)
Theorem bare_list_reply_is_the_selection (E : env) (brief_ : string)
    (file_list : list string) (content : string) (l : list pyval) (w : world) :
  chat_completion E (RelevanceQuery brief_ file_list) = Completed (Some content) ->
  open_then_close content = false ->
  literal_eval E content = Evaluated (PyList l) ->
  _llm_filter_relevant_files E brief_ file_list w
  = (Returns l, posted (ChatCompletion (RelevanceQuery brief_ file_list)) w).
Proof.
  intros Hreply Hotc Hlist.
  unfold _llm_filter_relevant_files, _execute_llm_call, bind, send, ret, lift,
    posted.
  rewrite Hreply.
  rewrite (no_span_fallback E content Hotc).
  cbn. now rewrite Hlist.
Qed.

Lemma bare_list_reply_is_the_selection_witness :
  open_then_close "['style.css']" = false
  /\ _llm_filter_relevant_files Cases.bare_list_env "restyle"
       ["index.html"; "style.css"] Scenario.fresh
     = (Returns [PyStr "style.css"],
        posted (ChatCompletion
                  (RelevanceQuery "restyle" ["index.html"; "style.css"]))
          Scenario.fresh).
Proof.
  split; [reflexivity|].
  exact (bare_list_reply_is_the_selection Cases.bare_list_env "restyle"
           ["index.html"; "style.css"] "['style.css']" [PyStr "style.css"]
           Scenario.fresh eq_refl eq_refl eq_refl).
Defined.

Lemma first_list_all_skipped (E : env) (items : pydict) (file_list : list string) :
  forallb (fun kv => skipped_by_filter (literal_eval_value E (snd kv))) items
  = true ->
  first_list E items file_list = Returns (map PyStr file_list).
Proof.
  induction items as [|[k v] rest IH]; cbn; [reflexivity|].
  intros H. apply andb_prop in H. destruct H as [Hv Hrest].
  destruct (literal_eval_value E v) as [x|msg|e]; cbn in Hv.
  - destruct x; try discriminate; now apply IH.
  - now apply IH.
  - discriminate.
Qed.

(** X6: when every value of the response dict is one the loop goes past (a
    value that does not evaluate, or evaluates to something that is no
    list), the filter returns the path list it was given, unchanged and in
    order, after its one model call. *)
Theorem filter_falls_back_to_every_path (E : env) (brief_ : string)
    (file_list : list string) (w : world) :
  forallb (fun kv => skipped_by_filter (literal_eval_value E (snd kv)))
    (extract_files E (chat_completion E (RelevanceQuery brief_ file_list)))
  = true ->
  _llm_filter_relevant_files E brief_ file_list w
  = (Returns (map PyStr file_list),
     posted (ChatCompletion (RelevanceQuery brief_ file_list)) w).
Proof.
  intros H.
  unfold _llm_filter_relevant_files, _execute_llm_call, bind, send, ret, lift,
    posted.
  cbn. now rewrite (first_list_all_skipped E _ file_list H).
Qed.

Lemma filter_falls_back_to_every_path_witness :
  _llm_filter_relevant_files Cases.prose_env "restyle"
    ["index.html"; "style.css"] Scenario.fresh
  = (Returns [PyStr "index.html"; PyStr "style.css"],
     posted (ChatCompletion (RelevanceQuery "restyle" ["index.html"; "style.css"]))
       Scenario.fresh).
Proof.
  exact (filter_falls_back_to_every_path Cases.prose_env "restyle"
           ["index.html"; "style.css"] Scenario.fresh eq_refl).
Defined.

(** ** [generate_app_code] *)

Lemma dict_get_keys {V : Type} (p : string) (d : dict V) :
  In p (keys d) <-> exists v, dict_get p d = Some v.
Proof.
  unfold keys. induction d as [|[k v] d IH]; cbn.
  - split; [intros [] | intros [v H]; discriminate].
  - destruct (String.eqb p k) eqn:Hpk.
    + apply String.eqb_eq in Hpk. subst k. split; eauto.
    + rewrite <- IH. split; [|tauto].
      intros [->|H]; [now rewrite String.eqb_refl in Hpk | exact H].
Qed.

Lemma context_of_from (rel : list pyval) (files : pydict) :
  forall acc,
    forallb hashable rel = true ->
    NoDup (keys acc) ->
    (forall p v, dict_get p acc = Some v -> dict_get p files = Some v) ->
    exists ctx,
      context_of rel files acc = Returns ctx
      /\ NoDup (keys ctx)
      /\ forall p v,
           dict_get p ctx = Some v
           <-> dict_get p files = Some v
               /\ (In p (keys acc) \/ In (PyStr p) rel).
Proof.
  induction rel as [|x rest IH]; intros acc Hh Hnd Hsub.
  - exists acc. cbn. split; [reflexivity|]. split; [exact Hnd|].
    intros p v. split.
    + intros H. split; [now apply Hsub|]. left. apply dict_get_keys. eauto.
    + intros [Hf [Hin|[]]]. apply dict_get_keys in Hin. destruct Hin as [v0 Hv0].
      rewrite Hv0. rewrite (Hsub p v0 Hv0) in Hf. exact Hf.
  - cbn [forallb] in Hh. apply andb_prop in Hh. destruct Hh as [Hx Hrest].
    cbn [context_of]. rewrite Hx.
    assert (Hskip : (forall q, x <> PyStr q) ->
              exists ctx,
                context_of rest files acc = Returns ctx
                /\ NoDup (keys ctx)
                /\ forall p v,
                     dict_get p ctx = Some v
                     <-> dict_get p files = Some v
                         /\ (In p (keys acc) \/ In (PyStr p) (x :: rest))).
    { intros Hne. destruct (IH acc Hrest Hnd Hsub) as (ctx & Hrun & Hnd' & Hspec).
      exists ctx. split; [exact Hrun|]. split; [exact Hnd'|].
      intros p v. rewrite Hspec. cbn [In]. split; [tauto|].
      intros [Hf [H|[H|H]]]; auto. now elim (Hne p). }
    destruct x as [| | |q| | | |]; try (apply Hskip; intros; discriminate).
    clear Hskip.
    destruct (dict_get q files) as [content|] eqn:Hq.
    + destruct (IH (dict_set q content acc) Hrest (dict_set_NoDup q content acc Hnd))
        as (ctx & Hrun & Hnd' & Hspec).
      { intros p v. destruct (String.eqb_spec p q) as [->|Hne].
        - rewrite dict_get_set_same. intros H. injection H as <-. exact Hq.
        - rewrite (dict_get_set_other q p content acc Hne). apply Hsub. }
      exists ctx. split; [exact Hrun|]. split; [exact Hnd'|].
      intros p v. rewrite Hspec, keys_dict_set. cbn [In]. split.
      * intros [Hf [[->|H]|H]]; auto.
      * intros [Hf [H|[H|H]]]; auto. injection H as ->. auto.
    + destruct (IH acc Hrest Hnd Hsub) as (ctx & Hrun & Hnd' & Hspec).
      exists ctx. split; [exact Hrun|]. split; [exact Hnd'|].
      intros p v. rewrite Hspec. cbn [In]. split; [tauto|].
      intros [Hf [H|[H|H]]]; auto. injection H as ->. congruence.
Qed.

(** X7: the context sent with the modification prompt is the snapshot
    restricted to the selected paths: an entry is in it exactly when its
    path is a [str] of the selection and a file of the snapshot, with the
    snapshot's content; selected paths the snapshot does not know, and
    elements that are no [str], are passed over. *)
Theorem context_is_restriction (relevant : list pyval) (files : pydict) :
  forallb hashable relevant = true ->
  exists ctx,
    context_of relevant files [] = Returns ctx
    /\ NoDup (keys ctx)
    /\ forall p v,
         dict_get p ctx = Some v
         <-> In (PyStr p) relevant /\ dict_get p files = Some v.
Proof.
  intros Hh.
  destruct (context_of_from relevant files [] Hh) as (ctx & Hrun & Hnd & Hspec).
  - constructor.
  - intros p v H. discriminate H.
  - exists ctx. split; [exact Hrun|]. split; [exact Hnd|].
    intros p v. rewrite Hspec. cbn. tauto.
Qed.

Lemma context_is_restriction_witness :
  exists ctx,
    context_of [PyStr "style.css"; PyInt 7; PyStr "gone.js"; PyStr "style.css"]
      [("index.html", PyStr "<h1>todo</h1>"); ("style.css", PyStr "button {}")]
      [] = Returns ctx
    /\ NoDup (keys ctx)
    /\ forall p v,
         dict_get p ctx = Some v
         <-> In (PyStr p)
               [PyStr "style.css"; PyInt 7; PyStr "gone.js"; PyStr "style.css"]
             /\ dict_get p
                  [("index.html", PyStr "<h1>todo</h1>");
                   ("style.css", PyStr "button {}")] = Some v.
Proof.
  exact (context_is_restriction
           [PyStr "style.css"; PyInt 7; PyStr "gone.js"; PyStr "style.css"]
           [("index.html", PyStr "<h1>todo</h1>"); ("style.css", PyStr "button {}")]
           eq_refl).
Defined.



Lemma dict_get_app_fresh {V : Type} (p : string) (v : V) (done rest : dict V) :
  ~ In p (keys done) -> dict_get p (done ++ (p, v) :: rest)%list = Some v.
Proof.
  unfold keys. induction done as [|[k x] done IH]; cbn; intros Hp.
  - now rewrite String.eqb_refl.
  - destruct (String.eqb_spec p k) as [->|Hne]; [tauto|]. apply IH. tauto.
Qed.

Lemma dict_set_fresh {V : Type} (p : string) (v : V) (d : dict V) :
  ~ In p (keys d) -> dict_set p v d = (d ++ [(p, v)])%list.
Proof.
  unfold keys. induction d as [|[k x] d IH]; cbn; intros Hp; [reflexivity|].
  destruct (String.eqb_spec p k) as [->|Hne]; [tauto|]. rewrite IH; tauto.
Qed.

Lemma context_of_every_path (rest : pydict) :
  forall done,
    NoDup (keys (done ++ rest)%list) ->
    context_of (map PyStr (keys rest)) (done ++ rest)%list done
    = Returns (done ++ rest)%list.
Proof.
  induction rest as [|[p v] rest IH]; intros done Hnd.
  - cbn. now rewrite app_nil_r.
  - assert (Hfresh : ~ In p (keys done)).
    { unfold keys in *. rewrite map_app in Hnd. cbn in Hnd.
      apply NoDup_remove_2 in Hnd. intros H. apply Hnd. apply in_or_app. now left. }
    cbn [keys map context_of hashable fst]. fold (keys rest).
    rewrite (dict_get_app_fresh p v done rest Hfresh).
    rewrite (dict_set_fresh p v done Hfresh).
    replace (done ++ (p, v) :: rest)%list with ((done ++ [(p, v)]) ++ rest)%list
      by (now rewrite <- app_assoc).
    apply IH. now rewrite <- app_assoc.
Qed.

(** X9: when the filter falls back to every path, the modification prompt
    carries the whole snapshot, each file in its place: generation then is
    the relevance call followed by the modification call over
    [existing_files] itself. *)
Theorem fallback_sends_whole_snapshot (E : env) (tn b : string)
    (c : list string) (atts : list Attachment) (entry : string * pyval)
    (more : pydict) (w : world) :
  let existing := entry :: more in
  let query := RelevanceQuery b (keys existing) in
  let request := ModificationPrompt tn b c atts existing in
  NoDup (keys existing) ->
  forallb (fun kv => skipped_by_filter (literal_eval_value E (snd kv)))
    (extract_files E (chat_completion E query)) = true ->
  generate_app_code E tn b c atts (Some existing) w
  = (Returns (extract_files E (chat_completion E request)),
     posted (ChatCompletion request) (posted (ChatCompletion query) w)).
Proof.
  intros existing query request Hnd Hskip. subst existing query request.
  unfold generate_app_code, _modify_existing_app, _llm_filter_relevant_files,
    _execute_llm_call, bind, send, ret, lift, posted.
  cbv beta iota zeta. cbn [remote trace].
  rewrite (first_list_all_skipped E _ _ Hskip).
  pose proof (context_of_every_path (entry :: more) [] Hnd) as Hctx.
  cbn [app] in Hctx. rewrite Hctx. reflexivity.
Qed.

Lemma fallback_sends_whole_snapshot_witness :
  generate_app_code Cases.prose_env "demo-app" "restyle" [] []
    (Some [("index.html", PyStr "<h1>todo</h1>"); ("style.css", PyStr "button {}")])
    Scenario.fresh
  = (Returns [("index.html", PyStr "I would edit the stylesheet.")],
     posted (ChatCompletion
               (ModificationPrompt "demo-app" "restyle" [] []
                  [("index.html", PyStr "<h1>todo</h1>");
                   ("style.css", PyStr "button {}")]))
       (posted (ChatCompletion (RelevanceQuery "restyle" ["index.html"; "style.css"]))
          Scenario.fresh)).
Proof.
  refine (fallback_sends_whole_snapshot Cases.prose_env "demo-app" "restyle" [] []
            ("index.html", PyStr "<h1>todo</h1>") [("style.css", PyStr "button {}")]
            Scenario.fresh _ eq_refl).
  repeat constructor; cbn; intuition discriminate.
Defined.

Lemma context_of_subset (rel : list pyval) (files : pydict) :
  forall acc ctx,
    context_of rel files acc = Returns ctx ->
    (forall p v, dict_get p acc = Some v -> dict_get p files = Some v) ->
    forall p v, dict_get p ctx = Some v -> dict_get p files = Some v.
Proof.
  induction rel as [|x rest IH]; intros acc ctx Hrun Hsub.
  - cbn in Hrun. injection Hrun as <-. exact Hsub.
  - cbn [context_of] in Hrun. destruct (hashable x); [|discriminate].
    destruct x as [| | |q| | | |]; try exact (IH acc ctx Hrun Hsub).
    destruct (dict_get q files) as [content|] eqn:Hq;
      [|exact (IH acc ctx Hrun Hsub)].
    apply (IH _ ctx Hrun). intros p v.
    destruct (String.eqb_spec p q) as [->|Hne].
    + rewrite dict_get_set_same. intros H. injection H as <-. exact Hq.
    + rewrite (dict_get_set_other q p content acc Hne). apply Hsub.
Qed.

(** X10: the calls of one generation.  Without existing files (absent or
    empty) there is exactly one call, the synthesis prompt, and its
    extracted reply is returned: this path never raises.  With existing
    files the relevance query over all their paths comes first; then
    either the selection fails and nothing more is sent, or exactly one
    modification prompt follows, whose context holds files of the snapshot
    only.  The store is never touched. *)
Theorem generation_calls (E : env) (tn b : string) (c : list string)
    (atts : list Attachment) (ex : option pydict) (w : world)
    (r : outcome pydict) (w' : world) :
  generate_app_code E tn b c atts ex w = (r, w') ->
  remote w' = remote w
  /\ match ex with
     | Some (entry :: more) =>
         let query := RelevanceQuery b (keys (entry :: more)) in
         (new_events w w' = [ChatCompletion query] /\ exists e, r = Raises e)
         \/ exists ctx,
              new_events w w'
              = [ChatCompletion query;
                 ChatCompletion (ModificationPrompt tn b c atts ctx)]
              /\ r = Returns (extract_files E
                                (chat_completion E
                                   (ModificationPrompt tn b c atts ctx)))
              /\ forall p v, dict_get p ctx = Some v ->
                             dict_get p (entry :: more) = Some v
     | _ =>
         new_events w w' = [ChatCompletion (SynthesisPrompt tn b c atts)]
         /\ r = Returns (extract_files E
                           (chat_completion E (SynthesisPrompt tn b c atts)))
     end.
Proof.
  unfold generate_app_code, _generate_new_app, _modify_existing_app,
    _llm_filter_relevant_files, _execute_llm_call, bind, send, ret, lift.
  destruct w as [st tr]. cbn [remote trace].
  assert (Hnew : forall (r0 : outcome pydict) w0,
             (Returns (extract_files E (chat_completion E (SynthesisPrompt tn b c atts))),
              {| remote := st;
                 trace := (tr ++ [ChatCompletion (SynthesisPrompt tn b c atts)])%list |})
             = (r0, w0) ->
             remote w0 = st
             /\ new_events {| remote := st; trace := tr |} w0
                = [ChatCompletion (SynthesisPrompt tn b c atts)]
             /\ r0 = Returns (extract_files E
                               (chat_completion E (SynthesisPrompt tn b c atts)))).
  { intros r0 w0 H. injection H as <- <-. split; [reflexivity|].
    split; [|reflexivity]. now apply new_events_app. }
  destruct ex as [[|entry more]|]; [apply Hnew| |apply Hnew].
  cbv zeta.
  match goal with
  | |- context [first_list E ?d ?l] => destruct (first_list E d l) as [rel|e]
  end.
  - match goal with
    | |- context [context_of ?a ?f ?acc] =>
        destruct (context_of a f acc) as [ctx|e] eqn:Hctx
    end.
    + intros H. injection H as <- <-. split; [reflexivity|]. right.
      exists ctx. split; [|split; [reflexivity|]].
      * apply new_events_app. cbn. now rewrite <- app_assoc.
      * apply (context_of_subset _ _ _ _ Hctx). intros p v H. discriminate H.
    + intros H. injection H as <- <-. split; [reflexivity|]. left.
      split; [now apply new_events_app | eauto].
  - intros H. injection H as <- <-. split; [reflexivity|]. left.
    split; [now apply new_events_app | eauto].
Qed.

Lemma generation_calls_witness :
  new_events Scenario.published
    (snd (generate_app_code Scenario.modification "demo-app" "restyle" [] []
            (Some [("index.html", PyStr "<h1>todo</h1>");
                   ("style.css", PyStr "button {}")])
            Scenario.published))
  = [ChatCompletion (RelevanceQuery "restyle" ["index.html"; "style.css"])]
  \/ exists ctx,
       new_events Scenario.published
         (snd (generate_app_code Scenario.modification "demo-app" "restyle" [] []
                 (Some [("index.html", PyStr "<h1>todo</h1>");
                        ("style.css", PyStr "button {}")])
                 Scenario.published))
       = [ChatCompletion (RelevanceQuery "restyle" ["index.html"; "style.css"]);
          ChatCompletion (ModificationPrompt "demo-app" "restyle" [] [] ctx)].
Proof.
  destruct (proj2 (generation_calls Scenario.modification "demo-app" "restyle"
                     [] []
                     (Some [("index.html", PyStr "<h1>todo</h1>");
                            ("style.css", PyStr "button {}")])
                     Scenario.published _ _ eq_refl))
    as [[H _] | (ctx & H & _)].
  - left. exact H.
  - right. exists ctx. exact H.
Defined.

(** ** [_get_repo_files] *)

Lemma In_dict_set {V : Type} (q k : string) (v x : V) (d : dict V) :
  In (q, v) (dict_set k x d) -> (q = k /\ v = x) \/ In (q, v) d.
Proof.
  induction d as [|[k0 v0] d IH]; cbn.
  - intros [H|[]]. injection H as <- <-. now left.
  - destruct (String.eqb k k0); cbn.
    + intros [H|H]; [injection H as <- <-; now left | right; now right].
    + intros [H|H]; [right; now left|].
      destruct (IH H) as [?|?]; [now left | right; now right].
Qed.

Lemma keys_dict_update {V : Type} (d e : dict V) (q : string) :
  In q (keys (dict_update d e)) <-> In q (keys d) \/ In q (keys e).
Proof.
  unfold dict_update. revert d.
  induction e as [|[k v] e IH]; intros d; cbn [fold_left fst snd].
  - unfold keys. cbn. tauto.
  - rewrite IH, keys_dict_set. unfold keys. cbn. intuition congruence.
Qed.

Lemma In_dict_update {V : Type} (d e : dict V) (q : string) (v : V) :
  In (q, v) (dict_update d e) -> In (q, v) d \/ In (q, v) e.
Proof.
  unfold dict_update. revert d.
  induction e as [|[k x] e IH]; intros d; cbn [fold_left fst snd].
  - now left.
  - intros H. destruct (IH _ H) as [H'|H']; [|right; now right].
    destruct (In_dict_set q k v x d H') as [[-> ->]|?]; [right; now left | now left].
Qed.

Lemma drawn_from_set (src : list (string * response)) (d : pydict)
    (p : string) (r : response) :
  drawn_from src d ->
  drawn_from (src ++ [(p, r)])%list (dict_set p (PyStr (text r)) d).
Proof.
  intros (Hnd & Hkeys & Hval). split; [|split].
  - now apply dict_set_NoDup.
  - intros q. rewrite keys_dict_set, Hkeys, map_app, in_app_iff. cbn. intuition.
  - intros q v H. destruct (In_dict_set q p v _ d H) as [[-> ->]|H'].
    + exists r. split; [|reflexivity]. apply in_or_app. right. now left.
    + destruct (Hval q v H') as (r' & Hin & ->).
      exists r'. split; [|reflexivity]. apply in_or_app. now left.
Qed.

Lemma drawn_from_update (s1 s2 : list (string * response)) (d1 d2 : pydict) :
  drawn_from s1 d1 -> drawn_from s2 d2 ->
  drawn_from (s1 ++ s2)%list (dict_update d1 d2).
Proof.
  intros (Hnd1 & Hk1 & Hv1) (Hnd2 & Hk2 & Hv2). split; [|split].
  - now apply dict_update_NoDup.
  - intros q. rewrite keys_dict_update, Hk1, Hk2, map_app, in_app_iff. tauto.
  - intros q v H. destruct (In_dict_update d1 d2 q v H) as [H'|H'].
    + destruct (Hv1 q v H') as (r & Hin & ->). exists r.
      split; [|reflexivity]. apply in_or_app. now left.
    + destruct (Hv2 q v H') as (r & Hin & ->). exists r.
      split; [|reflexivity]. apply in_or_app. now right.
Qed.

Lemma snapshot_drawn (l : listing) :
  forall path_ d,
    _get_repo_files path_ l = Returns d -> drawn_from (downloaded l) d.
Proof.
  revert l. fix IH 1. intros [list_resp entries] path_ d.
  unfold downloaded.
  change (listed_files (Listing list_resp entries))
    with (flat_map listed_item entries).
  cbn [_get_repo_files].
  destruct (negb (status_code list_resp =? 200)); [discriminate|].
  intros Hrun.
  match type of Hrun with
  | ?each entries [] = Returns d =>
      assert (Hgen : forall src acc,
                 drawn_from src acc ->
                 each entries acc = Returns d ->
                 drawn_from (src ++ filter ok_download (flat_map listed_item entries))%list d)
  end.
  { clear Hrun.
    induction entries as [|it rest IHrest]; intros src acc Hacc.
    - intros H. injection H as <-. cbn. now rewrite app_nil_r.
    - cbn [flat_map]. rewrite filter_app.
      destruct it as [p file_resp|p sub|p]; cbn [listed_item].
      + cbn [filter app]. unfold ok_download at 1. cbn [snd].
        destruct (status_code file_resp =? 200) eqn:Hst; intros H.
        * rewrite app_assoc.
          apply (IHrest _ _ (drawn_from_set src acc p file_resp Hacc) H).
        * apply (IHrest _ _ Hacc H).
      + destruct (_get_repo_files p sub) as [found|e] eqn:Hsub; [|discriminate].
        intros H. rewrite app_assoc.
        apply (IHrest _ _ (drawn_from_update _ _ _ _ Hacc (IH sub p found Hsub)) H).
      + cbn [filter app]. intros H. apply (IHrest _ _ Hacc H). }
  apply (Hgen [] [] ); [|exact Hrun].
  split; [constructor|]. split; [cbn; tauto | intros q v []].
Qed.

(** X11: what a snapshot holds.  Its keys are unique and are exactly the
    paths of the listed files whose download was answered with 200 (a file
    whose download failed is left out, nothing else is); each value is the
    text of such a download of its path. *)
Theorem snapshot_holds_the_downloads (l : listing) (path_ : string) (d : pydict) :
  _get_repo_files path_ l = Returns d ->
  NoDup (keys d)
  /\ (forall q, In q (keys d)
                <-> exists r, In (q, r) (listed_files l) /\ status_code r = 200)
  /\ (forall q v, In (q, v) d ->
        exists r, In (q, r) (listed_files l) /\ status_code r = 200
                  /\ v = PyStr (text r)).
Proof.
  intros Hrun. destruct (snapshot_drawn l path_ d Hrun) as (Hnd & Hkeys & Hval).
  assert (Hdl : forall q r, In (q, r) (downloaded l)
                            <-> In (q, r) (listed_files l) /\ status_code r = 200).
  { intros q r. unfold downloaded. rewrite filter_In. unfold ok_download.
    cbn [snd]. now rewrite Z.eqb_eq. }
  split; [exact Hnd|]. split.
  - intros q. rewrite Hkeys, in_map_iff. split.
    + intros ([q' r] & Heq & Hin). cbn in Heq. subst q'.
      exists r. now apply Hdl.
    + intros (r & Hin). exists (q, r). split; [reflexivity | now apply Hdl].
  - intros q v Hin. destruct (Hval q v Hin) as (r & Hr & ->).
    apply Hdl in Hr. exists r. tauto.
Qed.

Lemma snapshot_holds_the_downloads_witness :
  NoDup (keys [("index.html", PyStr "<h1>todo</h1>");
               ("style.css", PyStr "button {}");
               ("docs/README.md", PyStr "# demo-app")])
  /\ (forall q,
        In q (keys [("index.html", PyStr "<h1>todo</h1>");
                    ("style.css", PyStr "button {}");
                    ("docs/README.md", PyStr "# demo-app")])
        <-> exists r, In (q, r) (listed_files Scenario.site)
                      /\ status_code r = 200).
Proof.
  destruct (snapshot_holds_the_downloads Scenario.site "" _ eq_refl)
    as (Hnd & Hkeys & _).
  split; [exact Hnd | exact Hkeys].
Defined.

(** X12: a snapshot succeeds exactly when every listing request of the
    walk, the root's and each directory's, is answered with 200: a refused
    listing anywhere is fatal, a refused download never is. *)
Theorem snapshot_returns_iff (l : listing) :
  forall path_,
    (exists d, _get_repo_files path_ l = Returns d) <-> listings_ok l = true.
Proof.
  revert l. fix IH 1. intros [list_resp entries] path_.
  cbn [_get_repo_files listings_ok].
  destruct (status_code list_resp =? 200); cbn [negb andb].
  2:{ split; [intros [d H]; discriminate | discriminate]. }
  generalize (@nil (string * pyval)) as acc.
  induction entries as [|it rest IHrest]; intros acc.
  - cbn. split; eauto.
  - cbn [forallb]. destruct it as [p file_resp|p sub|p].
    + destruct (status_code file_resp =? 200); apply IHrest.
    + destruct (_get_repo_files p sub) as [found|e] eqn:Hsub.
      * rewrite (proj1 (IH sub p) (ex_intro _ found Hsub)). apply IHrest.
      * destruct (listings_ok sub) eqn:Hok.
        -- apply (IH sub p) in Hok. destruct Hok as [d Hd]. congruence.
        -- split; [intros [d H]; discriminate | discriminate].
    + apply IHrest.
Qed.

(** ** [upload_or_update_file] and the write loop *)

(** X13: a write that returns has sent exactly one PUT, whose URL was
    built from its own path, carrying the bytes of the content (a [str] as
    it is, encoded) and the identifier the probe found, if any; the store
    accepted it, and afterwards holds those bytes at the file that URL
    addresses (which is the path itself only when the path has nothing a
    URL reads otherwise, such as a fragment) and every other file as
    before; the result is the identifier of the response. *)
Theorem accepted_write_reads_back (E : env) (repo p : string) (content : pyval)
    (w : world) (id : option string) (w' : world) :
  upload_or_update_file E repo p content w = (Returns id, w') ->
  exists bytes s resp,
    content_bytes_of content = Returns bytes
    /\ new_events w w' = [PutFile p bytes s resp]
    /\ accepted resp = true /\ id = sha resp
    /\ s = (if (status_code (get_file E (remote w) p) =? 200)
               && truthy (sha (get_file E (remote w) p))
            then sha (get_file E (remote w) p) else None)
    /\ dict_get (addressed E repo p) (remote w') = Some bytes
    /\ forall q, q <> addressed E repo p ->
                 dict_get q (remote w') = dict_get q (remote w).
Proof.
  unfold upload_or_update_file, bind, read_remote, ret, raise, lift, send,
    write_remote.
  destruct w as [st tr]. cbn [remote trace].
  destruct (status_code (get_file E st p) =? 200) eqn:H200; cbn [andb].
  - destruct (content_bytes_of content) as [bytes|e]; [|discriminate].
    match goal with
    | |- context [put_file E st p bytes ?s] =>
        set (sh := s); set (resp := put_file E st p bytes sh)
    end.
    destruct ((status_code resp =? 200) || (status_code resp =? 201)) eqn:Hacc;
      [|discriminate].
    intros H. injection H as <- <-. exists bytes, sh, resp.
    repeat split; auto.
    + now apply new_events_app.
    + cbn. apply dict_get_set_same.
    + intros q Hq. cbn. now apply dict_get_set_other.
  - destruct (negb (status_code (get_file E st p) =? 404)); [discriminate|].
    destruct (content_bytes_of content) as [bytes|e]; [|discriminate].
    match goal with
    | |- context [put_file E st p bytes ?s] =>
        set (sh := s); set (resp := put_file E st p bytes sh)
    end.
    destruct ((status_code resp =? 200) || (status_code resp =? 201)) eqn:Hacc;
      [|discriminate].
    intros H. injection H as <- <-. exists bytes, sh, resp.
    repeat split; auto.
    + now apply new_events_app.
    + cbn. apply dict_get_set_same.
    + intros q Hq. cbn. now apply dict_get_set_other.
Qed.

Lemma accepted_write_reads_back_witness :
  exists bytes s resp,
    content_bytes_of (PyStr "body { margin: 0 }") = Returns bytes
    /\ new_events Scenario.published
         (snd (upload_or_update_file Scenario.creation "demo-app" "style.css#v2"
                 (PyStr "body { margin: 0 }") Scenario.published))
       = [PutFile "style.css#v2" bytes s resp]
    /\ s = Some "b10b"
    /\ dict_get "style.css"
         (remote (snd (upload_or_update_file Scenario.creation "demo-app"
                         "style.css#v2" (PyStr "body { margin: 0 }")
                         Scenario.published)))
       = Some bytes
    /\ dict_get "style.css#v2"
         (remote (snd (upload_or_update_file Scenario.creation "demo-app"
                         "style.css#v2" (PyStr "body { margin: 0 }")
                         Scenario.published)))
       = dict_get "style.css#v2" (remote Scenario.published).
Proof.
  destruct (accepted_write_reads_back Scenario.creation "demo-app" "style.css#v2"
              (PyStr "body { margin: 0 }") Scenario.published _ _ eq_refl)
    as (bytes & s & resp & Hb & Hev & _ & _ & Hs & Hget & Hother).
  exists bytes, s, resp.
  split; [exact Hb|]. split; [exact Hev|]. split; [exact Hs|].
  split; [exact Hget|]. apply Hother. discriminate.
Defined.

(** X14: a write that raises leaves the store exactly as it was, whether
    the probe was refused, the content was no bytes, or the PUT was
    rejected; at most the one PUT was sent. *)
Theorem failed_write_leaves_store (E : env) (repo p : string) (content : pyval)
    (w : world) (e : exn) (w' : world) :
  upload_or_update_file E repo p content w = (Raises e, w') ->
  remote w' = remote w
  /\ (new_events w w' = []
      \/ exists bytes s resp,
           new_events w w' = [PutFile p bytes s resp]
           /\ accepted resp = false
           /\ e = Exception ("Upload failed for " ++ p ++ ": " ++ text resp)).
Proof.
  unfold upload_or_update_file, bind, read_remote, ret, raise, lift, send,
    write_remote.
  destruct w as [st tr]. cbn [remote trace].
  assert (Hnone : forall w0 : world,
             trace w0 = tr -> new_events {| remote := st; trace := tr |} w0 = []).
  { intros w0 H. apply new_events_app. cbn. now rewrite app_nil_r. }
  destruct (status_code (get_file E st p) =? 200).
  - destruct (content_bytes_of content) as [bytes|e0].
    + match goal with
      | |- context [put_file E st p bytes ?s] =>
          set (sh := s); set (resp := put_file E st p bytes sh)
      end.
      destruct ((status_code resp =? 200) || (status_code resp =? 201)) eqn:Hacc;
        [discriminate|].
      intros H. injection H as <- <-. split; [reflexivity|]. right.
      exists bytes, sh, resp. repeat split; auto. now apply new_events_app.
    + intros H. injection H as <- <-. split; [reflexivity|]. left. now apply Hnone.
  - destruct (negb (status_code (get_file E st p) =? 404)).
    + intros H. injection H as <- <-. split; [reflexivity|]. left. now apply Hnone.
    + destruct (content_bytes_of content) as [bytes|e0].
      * match goal with
        | |- context [put_file E st p bytes ?s] =>
            set (sh := s); set (resp := put_file E st p bytes sh)
        end.
        destruct ((status_code resp =? 200) || (status_code resp =? 201)) eqn:Hacc;
          [discriminate|].
        intros H. injection H as <- <-. split; [reflexivity|]. right.
        exists bytes, sh, resp. repeat split; auto. now apply new_events_app.
      * intros H. injection H as <- <-. split; [reflexivity|]. left.
        now apply Hnone.
Qed.

Lemma failed_write_leaves_store_witness :
  remote (snd (upload_or_update_file Cases.locked "demo-app" "style.css"
                 (PyStr "body {}") Scenario.published))
  = remote Scenario.published.
Proof.
  exact (proj1 (failed_write_leaves_store Cases.locked "demo-app" "style.css"
                  (PyStr "body {}") Scenario.published _ _ eq_refl)).
Defined.

(** X15: the loop writes the entries in the order of the dict and stops at
    the first write that raises.  Nothing is rolled back: no file outside
    those the earlier entries address was changed, and when the earlier
    entries address different files, each of these files holds its entry's
    bytes; the last request sent, if any was sent for the failing entry,
    is for that entry. *)
Theorem upload_all_stops_at_first_failure (E : env) (repo : string)
    (items : pydict) :
  forall (latest : option string) (w : world) (e : exn) (w' : world),
    upload_all E repo items latest w = (Raises e, w') ->
    exists done p content rest,
      items = (done ++ (p, content) :: rest)%list
      /\ (put_paths (new_events w w') = keys done
          \/ put_paths (new_events w w') = (keys done ++ [p])%list)
      /\ (forall f, ~ In f (targets E repo (keys done)) ->
                    dict_get f (remote w') = dict_get f (remote w))
      /\ (NoDup (targets E repo (keys done)) ->
          forall q c, In (q, c) done ->
            exists bytes, content_bytes_of c = Returns bytes
                          /\ dict_get (addressed E repo q) (remote w')
                             = Some bytes).
Proof.
  induction items as [|[p content] rest IH]; intros latest w e w' Hrun.
  - cbn in Hrun. discriminate.
  - cbn [upload_all] in Hrun. unfold bind in Hrun.
    destruct (upload_or_update_file E repo p content w) as [r1 w1] eqn:Hup.
    destruct r1 as [id|e1].
    + (* the head was written; the failure is further on *)
      destruct (upload_or_update_file_effect E repo p content w _ _ Hup)
        as [[[e0 He0] _] | (bytes & s & resp & Hb & Hev & Hcase)];
        [discriminate|].
      destruct Hcase as [(_ & Hst & _) | (_ & _ & e0 & He0)]; [|discriminate].
      assert (Hget : dict_get (addressed E repo p) (remote w1) = Some bytes)
        by (rewrite Hst; apply dict_get_set_same).
      assert (Hother : forall f, f <> addressed E repo p ->
                                 dict_get f (remote w1) = dict_get f (remote w))
        by (intros f Hf; rewrite Hst; now apply dict_get_set_other).
      destruct (IH _ _ _ _ Hrun)
        as (done & p' & content' & rest' & -> & Hpaths & Hframe & Hdone).
      destruct (upload_all_trace E repo _ _ _ _ _ Hrun) as (evs & Htr' & _).
      assert (Hnew : new_events w w' = PutFile p bytes s resp :: new_events w1 w').
      { rewrite (new_events_app w1 w' evs Htr'). apply new_events_app.
        rewrite Htr', Hev. now rewrite <- app_assoc. }
      exists ((p, content) :: done), p', content', rest'.
      split; [reflexivity|]. split; [|split].
      * rewrite Hnew. unfold put_paths in *. cbn [flat_map app keys map fst].
        destruct Hpaths as [->| ->]; [left|right]; reflexivity.
      * intros f Hf. rewrite (Hframe f).
        -- apply Hother. intros ->. apply Hf. now left.
        -- intros H. apply Hf. now right.
      * intros Hnd q c Hin.
        unfold targets, keys in Hnd. cbn in Hnd.
        inversion Hnd as [|? ? Hfresh Hnd']; subst.
        destruct Hin as [Heq|Hin].
        -- injection Heq as <- <-. exists bytes. split; [exact Hb|].
           now rewrite (Hframe _ Hfresh).
        -- exact (Hdone Hnd' q c Hin).
    + (* the head is the failing entry *)
      injection Hrun as <- <-.
      exists [], p, content, rest. split; [reflexivity|].
      destruct (upload_or_update_file_effect E repo p content w _ _ Hup)
        as [[_ ->] | (bytes & s & resp & Hb & Hev & Hcase)].
      * split; [|split].
        -- left. rewrite (new_events_app w w []); [reflexivity|].
           now rewrite app_nil_r.
        -- reflexivity.
        -- intros _ q c [].
      * destruct Hcase as [(_ & _ & Hr) | (_ & Hst & _)]; [discriminate|].
        split; [|split].
        -- right. now rewrite (new_events_app w w1 _ Hev).
        -- intros f _. now rewrite Hst.
        -- intros _ q c [].
Qed.

Lemma upload_all_stops_at_first_failure_witness :
  exists done p content rest,
    [("index.html#top", PyStr "<h1>todo</h1>"); ("README.md", PyStr "# demo-app")]
    = (done ++ (p, content) :: rest)%list
    /\ put_paths
         (new_events Scenario.fresh
            (snd (upload_all Cases.half_locked "demo-app"
                    [("index.html#top", PyStr "<h1>todo</h1>");
                     ("README.md", PyStr "# demo-app")]
                    None Scenario.fresh)))
       = (keys done ++ [p])%list
    /\ (forall q c, In (q, c) done ->
          exists bytes,
            content_bytes_of c = Returns bytes
            /\ dict_get (addressed Cases.half_locked "demo-app" q)
                 (remote (snd (upload_all Cases.half_locked "demo-app"
                                 [("index.html#top", PyStr "<h1>todo</h1>");
                                  ("README.md", PyStr "# demo-app")]
                                 None Scenario.fresh)))
               = Some bytes).
Proof.
  destruct (upload_all_stops_at_first_failure Cases.half_locked "demo-app"
              [("index.html#top", PyStr "<h1>todo</h1>");
               ("README.md", PyStr "# demo-app")]
              None Scenario.fresh _ _ eq_refl)
    as (done & p & content & rest & Heq & Hpaths & _ & Hdone).
  exists done, p, content, rest. split; [exact Heq|].
  destruct done as [|[q0 c0] [|second more]].
  - injection Heq as <- _ _. destruct Hpaths as [H | H]; vm_compute in H;
      discriminate H.
  - injection Heq as <- <- <- _ _. split; [reflexivity|].
    apply Hdone. repeat constructor. intros [].
  - destruct more; discriminate Heq.
Defined.

Lemma dict_set_held {V : Type} (p : string) (v : V) (d : dict V) :
  dict_get p d = Some v -> dict_set p v d = d.
Proof.
  induction d as [|[k x] d IH]; cbn; [discriminate|].
  destruct (String.eqb_spec p k) as [->|Hne].
  - intros H. now injection H as ->.
  - intros H. now rewrite (IH H).
Qed.

Lemma upload_all_of_held (E : env) (repo : string) (items : pydict) :
  forall (latest : option string) (w : world) (r : outcome (option string))
         (w' : world),
    upload_all E repo items latest w = (r, w') ->
    (forall p c, In (p, c) items ->
       exists bytes, content_bytes_of c = Returns bytes
                     /\ dict_get (addressed E repo p) (remote w) = Some bytes) ->
    remote w' = remote w.
Proof.
  induction items as [|[p content] rest IH]; intros latest w r w' Hrun Hheld.
  - cbn in Hrun. now injection Hrun as <- <-.
  - cbn [upload_all] in Hrun. unfold bind in Hrun.
    destruct (upload_or_update_file E repo p content w) as [r1 w1] eqn:Hup.
    destruct (Hheld p content (or_introl eq_refl)) as (bytes & Hb & Hget).
    assert (Hst1 : remote w1 = remote w).
    { destruct (upload_or_update_file_effect E repo p content w _ _ Hup)
        as [[_ ->] | (bytes' & s & resp & Hb' & _ & Hcase)]; [reflexivity|].
      rewrite Hb in Hb'. injection Hb' as <-.
      destruct Hcase as [(_ & -> & _) | (_ & -> & _)]; [|reflexivity].
      now apply dict_set_held. }
    destruct r1 as [id|e1].
    + rewrite (IH _ _ _ _ Hrun); [exact Hst1|].
      intros q c Hin. rewrite Hst1. apply Hheld. now right.
    + injection Hrun as <- <-. exact Hst1.
Qed.

(** X16: publishing a file set a second time changes nothing, when no two
    of its paths address the same file.  Once the loop has returned for
    such a file set, running it again on the store it left, however that
    run ends, leaves every file with the same content, in the same
    order. *)
Theorem republish_leaves_store (E : env) (repo : string) (items : pydict)
    (l1 l2 : option string) (w w1 w2 : world) (id : option string)
    (r : outcome (option string)) :
  NoDup (targets E repo (keys items)) ->
  upload_all E repo items l1 w = (Returns id, w1) ->
  upload_all E repo items l2 w1 = (r, w2) ->
  remote w2 = remote w1.
Proof.
  intros Hnd Hfirst Hsecond.
  apply (upload_all_of_held E repo items l2 w1 r w2 Hsecond).
  intros p c Hin.
  exact (upload_all_written E repo items l1 w id w1 Hfirst Hnd p c Hin).
Qed.

Lemma republish_leaves_store_witness :
  remote (snd (upload_all Scenario.creation "demo-app"
                 [("index.html", PyStr "<h1>todo</h1>"); ("README.md#about", PyStr "# demo-app")]
                 None
                 (snd (upload_all Scenario.creation "demo-app"
                         [("index.html", PyStr "<h1>todo</h1>");
                          ("README.md#about", PyStr "# demo-app")]
                         None Scenario.fresh))))
  = remote (snd (upload_all Scenario.creation "demo-app"
                   [("index.html", PyStr "<h1>todo</h1>");
                    ("README.md#about", PyStr "# demo-app")]
                   None Scenario.fresh)).
Proof.
  refine (republish_leaves_store Scenario.creation "demo-app"
            [("index.html", PyStr "<h1>todo</h1>");
             ("README.md#about", PyStr "# demo-app")]
            None None Scenario.fresh _ _ _ _ _ eq_refl eq_refl).
  repeat constructor; cbn; intuition discriminate.
Defined.

(** ** The order of the requests of a round *)

Lemma last_put_app (a b : list event) :
  last_put (a ++ b)%list
  = match last_put b with Some r => Some r | None => last_put a end.
Proof.
  induction a as [|ev a IH]; cbn [app last_put].
  - now destruct (last_put b).
  - rewrite IH. now destruct (last_put b).
Qed.

Lemma last_put_plain (evs : list event) :
  forallb is_plain evs = true -> last_put evs = None.
Proof.
  induction evs as [|ev evs IH]; cbn; [reflexivity|].
  intros H. apply andb_prop in H. destruct H as [Hev Hrest].
  rewrite (IH Hrest). now destruct ev.
Qed.

Lemma writes_are_puts (items : pydict) (evs : list event) :
  Forall (writes_entry_of items) evs -> forallb is_put evs = true.
Proof.
  induction 1 as [|ev evs (p & c & b & s & resp & -> & _) _ IH]; cbn; trivial.
Qed.

Lemma upload_all_returns (E : env) (repo : string) (items : pydict) :
  forall (latest : option string) (w : world) (id : option string) (w' : world),
    upload_all E repo items latest w = (Returns id, w') ->
    exists evs,
      trace w' = (trace w ++ evs)%list
      /\ forallb accepted_put evs = true
      /\ match last_put evs with
         | Some resp => id = sha resp
         | None => id = latest
         end.
Proof.
  induction items as [|[p content] rest IH]; intros latest w id w' Hrun.
  - cbn in Hrun. injection Hrun as <- <-. exists []. rewrite app_nil_r. now cbn.
  - cbn [upload_all] in Hrun. unfold bind in Hrun.
    destruct (upload_or_update_file E repo p content w) as [r1 w1] eqn:Hup.
    destruct (upload_or_update_file_effect E repo p content w _ _ Hup)
      as [[(e & ->) _] | (bytes & s & resp & _ & Htr & Hcase)];
      [discriminate|].
    destruct Hcase as [(Hacc & _ & ->) | (_ & _ & e & ->)]; [|discriminate].
    destruct (IH _ _ _ _ Hrun) as (evs & Htr' & Hall & Hlast).
    exists (PutFile p bytes s resp :: evs). split; [|split].
    + rewrite Htr', Htr, <- app_assoc. reflexivity.
    + cbn. now rewrite Hacc, Hall.
    + cbn [last_put]. destruct (last_put evs); assumption.
Qed.

(** A handler that raised before or in the write loop: the trace equation
    is closed by computation, the remaining parts by the stage they name. *)
Ltac stopped :=
  split; [cbn [trace posted app]; rewrite ?app_nil_r, <- ?app_assoc; reflexivity|];
  split; [first [now left | now right]|];
  split; [first [reflexivity | assumption]|];
  split; [first [reflexivity | eapply writes_are_puts; eassumption]|];
  split; [left; split; [reflexivity | intros _; eauto]|];
  intros ? ?; discriminate.

(** The requests of the round handler that [handle_task] selects: the
    repository creation (first round only), the model calls, the writes and
    the hosting request (first round only, and only when the loop
    returned). *)
Lemma dispatch_order (E : env) (t : TaskRequest) (w : world)
    (r : outcome (option string)) (w' : world) :
  dispatch E t w = (r, w') ->
  exists head calls puts tail,
    trace w' = (trace w ++ head ++ calls ++ puts ++ tail)%list
    /\ ((round t <> 1 /\ head = []) \/ (round t = 1 /\ head = [PostRepo (task t)]))
    /\ forallb is_model_call calls = true
    /\ forallb is_put puts = true
    /\ ((tail = [] /\ (round t = 1 -> exists e, r = Raises e))
        \/ (round t = 1 /\ tail = [PostPages (task t)] /\ exists id, r = Returns id))
    /\ (forall id, r = Returns id ->
          forallb accepted_put puts = true
          /\ match last_put puts with
             | Some resp => id = sha resp
             | None => id = None
             end).
Proof.
  unfold dispatch. destruct (round t =? 1) eqn:H1.
  - apply Z.eqb_eq in H1. rewrite handle_round_1_run. cbv zeta.
    destruct (negb (status_code (post_repo E (task t)) =? 201)).
    { intros H. injection H as <- <-.
      exists [PostRepo (task t)], [], [], []. stopped. }
    destruct (attachments t) as [atts|].
    2:{ intros H. injection H as <- <-.
        exists [PostRepo (task t)], [], [], []. stopped. }
    destruct (generate_app_code E (task t) (brief t) (checks t) atts None _)
      as [rg w2] eqn:Hgen.
    destruct (generate_app_code_effect _ _ _ _ _ _ _ _ _ Hgen)
      as (_ & (calls & Htr2 & Hcalls) & _).
    cbn [trace posted] in Htr2.
    destruct rg as [generated|e].
    2:{ intros H. injection H as <- <-.
        exists [PostRepo (task t)], calls, [], []. rewrite Htr2. stopped. }
    destruct (overlay E atts generated) as [fs|e].
    2:{ intros H. injection H as <- <-.
        exists [PostRepo (task t)], calls, [], []. rewrite Htr2. stopped. }
    destruct (upload_all E (task t) fs None w2) as [r3 w3] eqn:Hup.
    destruct (upload_all_trace E _ _ _ _ _ _ Hup) as (puts & Htr3 & Hputs & _).
    destruct r3 as [id|e].
    + intros H. injection H as <- <-.
      destruct (upload_all_returns E _ _ _ _ _ _ Hup) as (puts' & Htr3' & Hacc & Hlast).
      rewrite Htr3 in Htr3'. apply app_inv_head in Htr3'. subst puts'.
      exists [PostRepo (task t)], calls, puts, [PostPages (task t)].
      cbn [trace posted]. rewrite Htr3, Htr2, <- !app_assoc.
      split; [reflexivity|]. split; [now right|]. split; [exact Hcalls|].
      split; [exact (writes_are_puts _ _ Hputs)|].
      split; [right; eauto|].
      intros id' Hid. injection Hid as <-. now split.
    + intros H. injection H as <- <-.
      exists [PostRepo (task t)], calls, puts, [].
      rewrite Htr3, Htr2. stopped.
  - assert (Hne : round t <> 1) by (intros Heq; rewrite Heq in H1; discriminate).
    destruct (round t >? 1).
    2:{ unfold raise. intros H. injection H as <- <-.
        exists [], [], [], []. stopped. }
    rewrite handle_round_2_run.
    destruct (_get_repo_files "" (get_contents E (task t))) as [[|entry more]|e].
    1,3: intros H; injection H as <- <-; exists [], [], [], []; stopped.
    destruct (attachments t) as [atts|].
    2:{ intros H; injection H as <- <-; exists [], [], [], []; stopped. }
    destruct (generate_app_code E (task t) (brief t) (checks t) atts _ w)
      as [rg w1] eqn:Hgen.
    destruct (generate_app_code_effect _ _ _ _ _ _ _ _ _ Hgen)
      as (_ & (calls & Htr1 & Hcalls) & _).
    destruct rg as [generated|e].
    2:{ intros H; injection H as <- <-; exists [], calls, [], [].
        rewrite Htr1. stopped. }
    destruct (overlay E atts generated) as [fs|e].
    2:{ intros H; injection H as <- <-; exists [], calls, [], [].
        rewrite Htr1. stopped. }
    intros Hup.
    destruct (upload_all_trace E _ _ _ _ _ _ Hup) as (puts & Htr3 & Hputs & _).
    exists [], calls, puts, []. cbn [app].
    rewrite Htr3, Htr1, app_nil_r, <- !app_assoc.
    split; [reflexivity|]. split; [now left|]. split; [exact Hcalls|].
    split; [exact (writes_are_puts _ _ Hputs)|].
    split; [left; split; [trivial | intros Hr; now elim Hne]|].
    intros id ->.
    destruct (upload_all_returns E _ _ _ _ _ _ Hup) as (puts' & Htr3' & Hacc & Hlast).
    rewrite Htr3 in Htr3'. apply app_inv_head in Htr3'. subst puts'. now split.
Qed.

Lemma puts_no_notification (evs : list event) :
  forallb is_put evs = true -> existsb is_notification evs = false.
Proof.
  induction evs as [|ev evs IH]; cbn; [reflexivity|].
  intros H. apply andb_prop in H. destruct H as [Hev Hrest].
  rewrite (IH Hrest). now destruct ev.
Qed.

Lemma last_put_In (evs : list event) (resp : response) :
  last_put evs = Some resp -> exists p c s, In (PutFile p c s resp) evs.
Proof.
  induction evs as [|ev evs IH]; cbn [last_put]; [discriminate|].
  destruct (last_put evs) as [later|].
  - intros H. destruct (IH H) as (p & c & s & Hin). exists p, c, s. now right.
  - destruct ev; try discriminate.
    intros H. injection H as <-. eexists _, _, _. left. reflexivity.
Qed.

Lemma last_put_calls (evs : list event) :
  forallb is_model_call evs = true -> last_put evs = None.
Proof. intros H. apply last_put_plain. now apply model_calls_plain. Qed.

(** X17: the requests of a round come in stages.  Whatever the outcome,
    what [handle_task] sends is, in this order: the repository creation (on
    the first round, never later), the model calls, the writes, the hosting
    request (on the first round only, and only after every write was
    accepted), and at most one notification, which is sent only after
    writes that were all accepted. *)
Theorem requests_come_in_stages (E : env) (t : TaskRequest) (w : world)
    (r : outcome unit) (w' : world) :
  handle_task E t w = (r, w') ->
  exists head calls puts tail note,
    new_events w w' = (head ++ calls ++ puts ++ tail ++ note)%list
    /\ ((round t <> 1 /\ head = []) \/ (round t = 1 /\ head = [PostRepo (task t)]))
    /\ forallb is_model_call calls = true
    /\ forallb is_put puts = true
    /\ (tail = []
        \/ (round t = 1 /\ tail = [PostPages (task t)]
            /\ forallb accepted_put puts = true))
    /\ (note = []
        \/ ((exists payload, note = [PostEvaluation (evaluation_url t) payload])
            /\ puts <> [] /\ forallb accepted_put puts = true
            /\ (round t = 1 -> tail = [PostPages (task t)]))).
Proof.
  intros Hrun. rewrite handle_task_run in Hrun.
  destruct (dispatch E t w) as [r1 w1] eqn:Hd.
  destruct (dispatch_order E t w r1 w1 Hd)
    as (head & calls & puts & tail & Htr & Hhead & Hcalls & Hputs & Htail & Hret).
  assert (Htail' : tail = []
                   \/ (round t = 1 /\ tail = [PostPages (task t)]
                       /\ forallb accepted_put puts = true)).
  { destruct Htail as [[-> _] | (H1 & -> & id & ->)]; [now left|].
    right. split; [exact H1|]. split; [reflexivity|].
    exact (proj1 (Hret id eq_refl)). }
  destruct r1 as [id|e].
  - destruct (Hret id eq_refl) as [Hacc Hlast].
    destruct (negb (truthy id)) eqn:Hid.
    + injection Hrun as <- <-.
      exists head, calls, puts, tail, []. rewrite app_nil_r.
      split; [exact (new_events_app w w1 _ Htr)|]. now repeat split; auto.
    + cbv zeta in Hrun.
      assert (Hw' : trace w'
                    = (trace w1
                       ++ [PostEvaluation (evaluation_url t) (notification E t id)])%list).
      { destruct (negb (status_code _ =? 200)); injection Hrun as <- <-;
          reflexivity. }
      exists head, calls, puts, tail,
        [PostEvaluation (evaluation_url t) (notification E t id)].
      split.
      { apply new_events_app. rewrite Hw', Htr, <- !app_assoc. reflexivity. }
      split; [exact Hhead|]. split; [exact Hcalls|]. split; [exact Hputs|].
      split; [exact Htail'|]. right. split; [eauto|]. split; [|split].
      * intros ->. cbn in Hlast. subst id. discriminate.
      * exact Hacc.
      * intros H1. destruct Htail as [[_ Hr] | (_ & -> & _)]; [|reflexivity].
        destruct (Hr H1) as (e & He). discriminate.
  - injection Hrun as <- <-.
    exists head, calls, puts, tail, []. rewrite app_nil_r.
    split; [exact (new_events_app w w1 _ Htr)|]. now repeat split; auto.
Qed.

Lemma requests_come_in_stages_witness :
  exists head calls puts tail note,
    new_events Scenario.fresh
      (snd (handle_task Scenario.creation (Scenario.request 1 []) Scenario.fresh))
    = (head ++ calls ++ puts ++ tail ++ note)%list
    /\ head = [PostRepo "demo-app"]
    /\ tail = [PostPages "demo-app"]
    /\ note <> [].
Proof.
  destruct (requests_come_in_stages Scenario.creation (Scenario.request 1 [])
              Scenario.fresh _ _ eq_refl)
    as (head & calls & puts & tail & note & Hev & Hhead & Hcalls & Hputs
        & Htail & Hnote).
  exists head, calls, puts, tail, note.
  destruct Hhead as [[Hne _] | [_ Hhead]]; [now elim Hne|].
  destruct Hnote as [-> | (_ & _ & _ & Hhost)].
  - exfalso. subst head.
    apply (f_equal (existsb is_notification)) in Hev.
    rewrite !existsb_app in Hev.
    rewrite (plain_no_notification _ (model_calls_plain _ Hcalls)) in Hev.
    rewrite (puts_no_notification _ Hputs) in Hev.
    destruct Htail as [-> | (_ & -> & _)]; vm_compute in Hev; discriminate.
  - split; [exact Hev|]. split; [exact Hhead|]. split; [now apply Hhost|].
    intros ->. apply (f_equal (existsb is_notification)) in Hev.
    rewrite !existsb_app in Hev.
    rewrite (plain_no_notification _ (model_calls_plain _ Hcalls)) in Hev.
    rewrite (puts_no_notification _ Hputs) in Hev.
    subst head. rewrite (Hhost eq_refl) in Hev. vm_compute in Hev. discriminate.
Defined.

(** X18: what a successful run reports.  When [handle_task] returns, the
    last thing it sent is the one notification of the run, the evaluation
    server answered it with 200, and the notification carries the request's
    own fields and, as commit, the identifier in the response to the last
    write, which was accepted and is not empty. *)
Theorem success_reports_last_write (E : env) (t : TaskRequest) (w w' : world) :
  handle_task E t w = (Returns tt, w') ->
  exists before resp,
    new_events w w'
    = (before ++ [PostEvaluation (evaluation_url t) (notification E t (sha resp))])%list
    /\ existsb is_notification before = false
    /\ last_put before = Some resp
    /\ accepted resp = true
    /\ truthy (sha resp) = true
    /\ status_code (post_evaluation E (evaluation_url t)
                      (notification E t (sha resp))) = 200.
Proof.
  intros Hrun. rewrite handle_task_run in Hrun.
  destruct (dispatch E t w) as [r1 w1] eqn:Hd.
  destruct (dispatch_order E t w r1 w1 Hd)
    as (head & calls & puts & tail & Htr & Hhead & Hcalls & Hputs & Htail & Hret).
  destruct r1 as [id|e]; [|discriminate].
  destruct (Hret id eq_refl) as [Hacc Hlast].
  destruct (truthy id) eqn:Hid; cbn [negb] in Hrun; [|discriminate].
  cbv zeta in Hrun.
  destruct (status_code (post_evaluation E (evaluation_url t) (notification E t id))
            =? 200) eqn:Hstatus; cbn [negb] in Hrun; [|discriminate].
  injection Hrun as <-.
  destruct (last_put puts) as [resp|] eqn:Hlp;
    [|subst id; discriminate].
  subst id.
  assert (Hnone : last_put tail = None /\ existsb is_notification tail = false).
  { destruct Htail as [[-> _] | (_ & -> & _)]; now split. }
  assert (Hhead' : last_put head = None /\ existsb is_notification head = false).
  { destruct Hhead as [[_ ->] | [_ ->]]; now split. }
  exists (head ++ calls ++ puts ++ tail)%list, resp.
  split.
  { apply new_events_app. cbn [trace posted]. now rewrite Htr, <- !app_assoc. }
  split.
  { rewrite !existsb_app, (proj2 Hhead'), (proj2 Hnone),
      (plain_no_notification _ (model_calls_plain _ Hcalls)),
      (puts_no_notification _ Hputs). reflexivity. }
  split.
  { rewrite !last_put_app, (proj1 Hnone), Hlp. reflexivity. }
  split.
  { destruct (last_put_In _ _ Hlp) as (p & c & s & Hin).
    exact (proj1 (forallb_forall _ _) Hacc _ Hin). }
  split; [exact Hid|]. now apply Z.eqb_eq.
Qed.

Lemma success_reports_last_write_witness :
  exists before resp,
    new_events Scenario.published
      (snd (handle_task Scenario.modification (Scenario.request 2 [])
              Scenario.published))
    = (before
       ++ [PostEvaluation (evaluation_url (Scenario.request 2 []))
             (notification Scenario.modification (Scenario.request 2 [])
                (sha resp))])%list
    /\ last_put before = Some resp
    /\ truthy (sha resp) = true.
Proof.
  destruct (success_reports_last_write Scenario.modification
              (Scenario.request 2 []) Scenario.published _ eq_refl)
    as (before & resp & Hev & _ & Hlast & _ & Hid & _).
  exists before, resp. now repeat split.
Defined.

(** ** Rounds that stop early *)

Lemma overlay_fails (E : env) (atts : list Attachment) (att : Attachment) :
  In att atts ->
  (forall v, decode_attachment E att <> Returns v) ->
  forall files, exists e, overlay E atts files = Raises e.
Proof.
  induction atts as [|a rest IH]; intros Hin Hbad files; [destruct Hin|].
  cbn [overlay]. destruct Hin as [-> | Hin].
  - destruct (decode_attachment E att) as [v|e]; [now elim (Hbad v) | eauto].
  - destruct (decode_attachment E a) as [v|e]; [|eauto].
    now apply IH.
Qed.

(** X19: a refused repository creation ends the first round at once.  When
    the creation request is answered with anything but 201, the endpoint
    replies 500 with the response text after the fixed prefix, and the
    creation request is the only thing that was sent. *)
Theorem refused_creation_ends_round (E : env) (req : TaskRequest) (w : world) :
  secret_differs (secret req) (STUDENT_SECRET E) = false ->
  round req = 1 ->
  status_code (post_repo E (task req)) <> 201 ->
  receive_task E req w
  = (HTTPException 500
       ("Failed to create repo: " ++ text (post_repo E (task req))),
     posted (PostRepo (task req)) w).
Proof.
  intros Hsecret Hround Hstatus.
  unfold receive_task. rewrite Hsecret, handle_task_run.
  unfold dispatch. rewrite Hround. cbn [Z.eqb Pos.eqb].
  rewrite handle_round_1_run. cbv zeta.
  apply Z.eqb_neq in Hstatus. rewrite Hstatus. reflexivity.
Qed.

Lemma refused_creation_ends_round_witness :
  receive_task Cases.name_taken (Scenario.request 1 []) Scenario.fresh
  = (HTTPException 500
       "Failed to create repo: name already exists on this account",
     posted (PostRepo "demo-app") Scenario.fresh).
Proof.
  exact (refused_creation_ends_round Cases.name_taken (Scenario.request 1 [])
           Scenario.fresh eq_refl eq_refl ltac:(discriminate)).
Defined.

(** X20: an attachment that cannot be decoded (its URL has no comma, or
    [b64decode] rejects the text after the comma) stops the round before the
    first write: the run raises, and nothing it sent is a write or a
    notification.  The model calls of the generation were made all the
    same. *)
Theorem bad_attachment_stops_before_writes (E : env) (t : TaskRequest)
    (w : world) (r : outcome unit) (w' : world) (atts : list Attachment)
    (att : Attachment) :
  handle_task E t w = (r, w') ->
  attachments t = Some atts ->
  In att atts ->
  (forall v, decode_attachment E att <> Returns v) ->
  (exists e, r = Raises e)
  /\ forallb is_plain (new_events w w') = true.
Proof.
  intros Hrun Hatts Hin Hbad. rewrite handle_task_run in Hrun.
  destruct (dispatch E t w) as [r1 w1] eqn:Hd.
  destruct (dispatch_stages E t w r1 w1 Hd)
    as [[(e & ->) (evs & Htr & Hplain)]
       | (atts' & generated & fs & w0 & w3 & pre & post & Hatts' & _ & Hov & _)].
  - injection Hrun as <- <-. split; [eauto|].
    now rewrite (new_events_app w w1 evs Htr).
  - rewrite Hatts in Hatts'. injection Hatts' as <-.
    destruct (overlay_fails E atts att Hin Hbad generated) as (e & He).
    rewrite He in Hov. discriminate.
Qed.

Lemma bad_attachment_stops_before_writes_witness :
  (exists e,
      fst (handle_task Scenario.modification
             (Scenario.request 2 [Scenario.stylesheet; Cases.plain_link])
             Scenario.published) = Raises e)
  /\ forallb is_plain
       (new_events Scenario.published
          (snd (handle_task Scenario.modification
                  (Scenario.request 2 [Scenario.stylesheet; Cases.plain_link])
                  Scenario.published))) = true.
Proof.
  refine (bad_attachment_stops_before_writes Scenario.modification
            (Scenario.request 2 [Scenario.stylesheet; Cases.plain_link])
            Scenario.published _ _ [Scenario.stylesheet; Cases.plain_link]
            Cases.plain_link (surjective_pairing _) eq_refl
            (or_intror (or_introl eq_refl)) _).
  intros v H. vm_compute in H. discriminate H.
Defined.



(** ** The endpoint *)

(** X22: a round number below 1 is answered with 500 and the text
    [Unknown round: n]; nothing is sent and the store is untouched. *)
Theorem unknown_round_rejected (E : env) (req : TaskRequest) (w : world) :
  secret_differs (secret req) (STUDENT_SECRET E) = false ->
  round req < 1 ->
  receive_task E req w
  = (HTTPException 500 ("Unknown round: " ++ str_of_int (round req)), w).
Proof.
  intros Hsecret Hround. unfold receive_task, handle_task, bind, raise.
  rewrite Hsecret.
  replace (round req =? 1) with false by (symmetry; apply Z.eqb_neq; lia).
  replace (round req >? 1) with false by (symmetry; rewrite Z.gtb_ltb; apply Z.ltb_ge; lia).
  reflexivity.
Qed.

Lemma unknown_round_rejected_witness :
  receive_task Scenario.creation (Scenario.request (-3) []) Scenario.fresh
  = (HTTPException 500 "Unknown round: -3", Scenario.fresh).
Proof.
  exact (unknown_round_rejected Scenario.creation (Scenario.request (-3) [])
           Scenario.fresh eq_refl eq_refl).
Defined.

(** X23: the endpoint answers 403 exactly when the configured secret is
    not the request's (an unset [STUDENT_SECRET] therefore rejects every
    request); the detail is then [Invalid secret], nothing was sent and
    the store is untouched. *)
Theorem rejected_iff_secret_differs (E : env) (req : TaskRequest) (w : world) :
  ((exists detail w', receive_task E req w = (HTTPException 403 detail, w'))
   <-> STUDENT_SECRET E <> Some (secret req))
  /\ (receive_task E req w = (HTTPException 403 "Invalid secret", w)
      <-> STUDENT_SECRET E <> Some (secret req)).
Proof.
  assert (Hto : STUDENT_SECRET E <> Some (secret req) ->
                receive_task E req w = (HTTPException 403 "Invalid secret", w)).
  { intros Hne. unfold receive_task, secret_differs.
    destruct (STUDENT_SECRET E) as [expected|]; [|reflexivity].
    destruct (String.eqb_spec (secret req) expected) as [Heq|_]; [|reflexivity].
    elim Hne. now rewrite Heq. }
  assert (Hfrom : forall detail w',
             receive_task E req w = (HTTPException 403 detail, w') ->
             STUDENT_SECRET E <> Some (secret req)).
  { intros detail w' H Heq. unfold receive_task, secret_differs in H.
    rewrite Heq, String.eqb_refl in H. cbn [negb] in H.
    destruct (handle_task E req w) as [[u|e] w1]; discriminate. }
  split; split; eauto.
  intros (detail & w' & H). eauto.
Qed.

(** ** Attachments *)

Lemma keys_dict_set_held {V : Type} (k : string) (v : V) (d : dict V) :
  In k (keys d) -> keys (dict_set k v d) = keys d.
Proof.
  induction d as [|[k' x] d IH]; cbn; [intros []|].
  destruct (String.eqb_spec k k') as [->|Hne]; [reflexivity|].
  intros [Heq | Hin]; [now elim Hne|]. cbn. f_equal. now apply IH.
Qed.

Lemma keys_dict_set_new {V : Type} (k : string) (v : V) (d : dict V) :
  ~ In k (keys d) -> keys (dict_set k v d) = (keys d ++ [k])%list.
Proof.
  induction d as [|[k' x] d IH]; cbn; [reflexivity|].
  intros Hnot. destruct (String.eqb_spec k k') as [->|Hne].
  - elim Hnot. now left.
  - cbn. f_equal. apply IH. intros Hin. apply Hnot. now right.
Qed.

(** X24: the overlay keeps the generated files where they are.  The keys
    of the file set after the attachment loop are the keys of the generated
    dict, in their order, followed by the attachment names the dict did
    not have, each once; so the writes of the generated paths come first
    and an attachment that replaces a generated file is written in that
    file's place. *)
Theorem overlay_keeps_order (E : env) (atts : list Attachment) :
  forall files fs,
    overlay E atts files = Returns fs ->
    exists added,
      keys fs = (keys files ++ added)%list
      /\ NoDup added
      /\ forall p, In p added <-> In p (map name atts) /\ ~ In p (keys files).
Proof.
  induction atts as [|a rest IH]; intros files fs Hrun.
  - cbn in Hrun. injection Hrun as <-. exists []. rewrite app_nil_r.
    split; [reflexivity|]. split; [constructor|]. cbn. tauto.
  - cbn [overlay] in Hrun.
    destruct (decode_attachment E a) as [v|e]; [|discriminate].
    destruct (IH _ _ Hrun) as (added & Hkeys & Hnd & Hin).
    destruct (in_dec string_dec (name a) (keys files)) as [Hheld | Hnew].
    + rewrite (keys_dict_set_held _ v _ Hheld) in Hkeys, Hin.
      exists added. split; [exact Hkeys|]. split; [exact Hnd|].
      intros p. rewrite Hin. cbn [map In]. split.
      * intros [Hp Hnot]. split; [now right | exact Hnot].
      * intros [[<- | Hp] Hnot]; [now elim Hnot | now split].
    + rewrite (keys_dict_set_new _ v _ Hnew) in Hkeys, Hin.
      exists (name a :: added). split; [|split].
      * rewrite Hkeys, <- app_assoc. reflexivity.
      * constructor; [|exact Hnd].
        intros Hmem. apply Hin in Hmem. apply (proj2 Hmem).
        apply in_or_app. right. now left.
      * intros p. cbn [map In]. rewrite Hin. split.
        -- intros [<- | [Hp Hnot]]; [split; [now left | exact Hnew]|].
           split; [now right|]. intros Hk. apply Hnot, in_or_app. now left.
        -- intros [[<- | Hp] Hnot]; [now left|].
           destruct (string_dec (name a) p) as [Heq | Hne]; [now left|].
           right. split; [exact Hp|]. intros Hk.
           apply in_app_or in Hk. destruct Hk as [Hk | [Hk | []]];
             [now elim Hnot | now elim Hne].
Qed.

Lemma overlay_keeps_order_witness :
  exists added,
    keys [("index.html", PyStr "<h1>todo</h1>"); ("style.css", PyBytes "hello");
          ("logo.css", PyBytes "hello")]
    = (keys [("index.html", PyStr "<h1>todo</h1>"); ("style.css", PyStr "button {}")]
       ++ added)%list
    /\ NoDup added
    /\ forall p,
         In p added
         <-> In p (map name [Scenario.stylesheet;
                             {| name := "logo.css"; url := url Scenario.stylesheet |}])
             /\ ~ In p (keys [("index.html", PyStr "<h1>todo</h1>");
                              ("style.css", PyStr "button {}")]).
Proof.
  exact (overlay_keeps_order Scenario.modification
           [Scenario.stylesheet;
            {| name := "logo.css"; url := url Scenario.stylesheet |}]
           [("index.html", PyStr "<h1>todo</h1>"); ("style.css", PyStr "button {}")]
           _ eq_refl).
Defined.

Lemma until_comma_whole (data : string) :
  has_char is_comma data = false -> until_comma data = data.
Proof.
  induction data as [|c rest IH]; cbn; [reflexivity|].
  unfold is_comma at 1. destruct (Ascii.eqb c ","); [discriminate|].
  cbn. intros H. now rewrite (IH H).
Qed.

Lemma until_comma_field (data tail : string) :
  has_char is_comma data = false -> until_comma (data ++ "," ++ tail) = data.
Proof.
  induction data as [|c rest IH]; cbn; [reflexivity|].
  unfold is_comma at 1. destruct (Ascii.eqb c ","); [discriminate|].
  cbn. intros H. f_equal. exact (IH H).
Qed.

Lemma split_comma_1_header (header rest : string) :
  has_char is_comma header = false ->
  split_comma_1 (header ++ "," ++ rest) = Some (until_comma rest).
Proof.
  induction header as [|c more IH]; cbn; [reflexivity|].
  unfold is_comma at 1. destruct (Ascii.eqb c ","); [discriminate|].
  cbn. exact IH.
Qed.

Lemma split_comma_1_none (u : string) :
  has_char is_comma u = false -> split_comma_1 u = None.
Proof.
  induction u as [|c more IH]; cbn; [reflexivity|].
  unfold is_comma at 1. destruct (Ascii.eqb c ","); [discriminate|].
  cbn. exact IH.
Qed.

(** X25: what is decoded of an attachment's URL.  With a header and a
    payload that hold no comma, the attachment decodes to the bytes that
    [b64decode] gives for the payload, when it gives any; whatever follows
    a second comma is ignored; and the header alone, a URL without a
    comma, raises [IndexError]. *)
Theorem data_uri_payload_is_second_field (E : env) (n header data tail : string) :
  has_char is_comma header = false ->
  has_char is_comma data = false ->
  (forall bytes,
      decode_attachment E {| name := n; url := header ++ "," ++ data |}
      = Returns (PyBytes bytes)
      <-> b64decode E data = Some bytes)
  /\ decode_attachment E {| name := n; url := header ++ "," ++ data ++ "," ++ tail |}
     = decode_attachment E {| name := n; url := header ++ "," ++ data |}
  /\ decode_attachment E {| name := n; url := header |}
     = Raises (Exn "IndexError" "list index out of range").
Proof.
  intros Hheader Hdata. unfold decode_attachment. cbn [url].
  rewrite !(split_comma_1_header _ _ Hheader),
    (until_comma_whole _ Hdata), (until_comma_field _ _ Hdata),
    (split_comma_1_none _ Hheader).
  split; [|split; reflexivity].
  intros bytes. destruct (b64decode E data) as [b|]; split; intros H;
    try discriminate; injection H as <-; reflexivity.
Qed.

Lemma data_uri_payload_is_second_field_witness :
  (forall bytes,
      decode_attachment Scenario.modification
        {| name := "a.txt"; url := "data:text/plain;base64" ++ "," ++ "aGVsbG8=" |}
      = Returns (PyBytes bytes)
      <-> b64decode Scenario.modification "aGVsbG8=" = Some bytes)
  /\ decode_attachment Scenario.modification
       {| name := "a.txt";
          url := "data:text/plain;base64" ++ "," ++ "aGVsbG8=" ++ "," ++ "rest" |}
     = decode_attachment Scenario.modification
         {| name := "a.txt"; url := "data:text/plain;base64" ++ "," ++ "aGVsbG8=" |}
  /\ decode_attachment Scenario.modification
       {| name := "a.txt"; url := "data:text/plain;base64" |}
     = Raises (Exn "IndexError" "list index out of range").
Proof.
  exact (data_uri_payload_is_second_field Scenario.modification "a.txt"
           "data:text/plain;base64" "aGVsbG8=" "rest" eq_refl eq_refl).
Defined.

Lemma later_round_changes_only_written_paths_witness :
  put_paths
    (new_events Scenario.published
       (snd (handle_task Scenario.anchored (Scenario.request 2 [])
               Scenario.published)))
  = ["index.html#v2"]
  /\ dict_get "style.css"
       (remote (snd (handle_task Scenario.anchored (Scenario.request 2 [])
                       Scenario.published)))
     = dict_get "style.css" (remote Scenario.published).
Proof.
  split; [reflexivity|].
  refine (later_round_changes_only_written_paths Scenario.anchored
            (Scenario.request 2 []) Scenario.published _ _ eq_refl
            (surjective_pairing _) "style.css" _).
  vm_compute. intros [H | []]. discriminate H.
Defined.

(** * The file set, the attachments and the reply *)

(** ** The paths of the file set *)

Lemma existsb_eqb_In (x : string) (l : list string) :
  existsb (String.eqb x) l = true <-> In x l.
Proof.
  rewrite existsb_exists. split.
  - intros (y & Hin & Heq). apply String.eqb_eq in Heq. now subst.
  - intros H. exists x. split; [exact H | apply String.eqb_refl].
Qed.

(** The keys the overlay leaves are those of [file_set_paths]. *)
Lemma overlay_keys (E : env) (atts : list Attachment) :
  forall files fs,
    overlay E atts files = Returns fs ->
    keys fs = (keys files ++ new_names (keys files) atts)%list.
Proof.
  induction atts as [|a rest IH]; intros files fs Hrun.
  - cbn in Hrun. injection Hrun as <-. cbn. now rewrite app_nil_r.
  - cbn [overlay] in Hrun.
    destruct (decode_attachment E a) as [v|e]; [|discriminate].
    rewrite (IH _ _ Hrun). cbn [new_names].
    destruct (existsb (String.eqb (name a)) (keys files)) eqn:Hhave.
    + apply existsb_eqb_In in Hhave.
      now rewrite (keys_dict_set_held _ v _ Hhave).
    + assert (Hnew : ~ In (name a) (keys files)).
      { intros H. apply existsb_eqb_In in H. congruence. }
      rewrite (keys_dict_set_new _ v _ Hnew). now rewrite <- app_assoc.
Qed.

(** The loop sends its writes in the order of the dict and stops at the
    first one that raises: the paths written are a prefix of the keys. *)
Lemma upload_all_paths (E : env) (repo : string) (items : pydict) :
  forall (latest : option string) (w : world) (r : outcome (option string))
         (w' : world),
    upload_all E repo items latest w = (r, w') ->
    exists n, put_paths (new_events w w') = firstn n (keys items).
Proof.
  induction items as [|[p content] rest IH]; intros latest w r w' Hrun.
  - cbn in Hrun. injection Hrun as <- <-. exists 0%nat.
    rewrite (new_events_app w w []); [reflexivity | now rewrite app_nil_r].
  - cbn [upload_all] in Hrun. unfold bind in Hrun.
    destruct (upload_or_update_file E repo p content w) as [r1 w1] eqn:Hup.
    destruct (upload_or_update_file_effect E repo p content w _ _ Hup)
      as [[[e ->] ->] | (bytes & s & resp & Hb & Htr & Hcase)].
    + injection Hrun as <- <-. exists 0%nat.
      rewrite (new_events_app w w []); [reflexivity | now rewrite app_nil_r].
    + destruct Hcase as [(Hacc & Hst & ->) | (Hacc & Hst & e & ->)].
      * destruct (IH _ _ _ _ Hrun) as (n & Hn).
        destruct (upload_all_trace E repo rest _ _ _ _ Hrun) as (evs & Htr' & _).
        rewrite (new_events_app w1 w' evs Htr') in Hn.
        exists (S n).
        rewrite (new_events_app w w' (PutFile p bytes s resp :: evs))
          by (rewrite Htr', Htr, <- app_assoc; reflexivity).
        change (put_paths (PutFile p bytes s resp :: evs))
          with (p :: put_paths evs).
        rewrite Hn. reflexivity.
      * injection Hrun as <- <-. exists 1%nat.
        rewrite (new_events_app w w1 _ Htr). reflexivity.
Qed.

(** C2, as amended: on a round after the first the write requests are for
    the paths of the attachment-augmented generated set, in the order of
    that set (the generated keys, then the new attachment names) and
    stopping at the first write that raises; when the round returns, or
    got as far as the notification, they are all of them, each once.  A
    file that none of these paths addresses holds after the round what it
    held before; so every path absent from the set is untouched when the
    paths of the set address themselves. *)
Theorem later_round_writes_only_file_set (E : env) (t : TaskRequest)
    (w : world) (r : outcome unit) (w' : world) (existing : pydict)
    (atts : list Attachment) (generated : pydict) (w1 : world) :
  1 < round t ->
  handle_task E t w = (r, w') ->
  _get_repo_files "" (get_contents E (task t)) = Returns existing ->
  attachments t = Some atts ->
  generate_app_code E (task t) (brief t) (checks t) atts (Some existing) w
  = (Returns generated, w1) ->
  (exists n, put_paths (new_events w w')
             = firstn n (file_set_paths generated atts))
  /\ (r = Returns tt \/ existsb is_notification (new_events w w') = true ->
      put_paths (new_events w w') = file_set_paths generated atts)
  /\ (forall f, ~ In f (targets E (task t) (file_set_paths generated atts)) ->
                dict_get f (remote w') = dict_get f (remote w))
  /\ ((forall q, In q (file_set_paths generated atts) ->
                 addressed E (task t) q = q) ->
      forall p, ~ In p (file_set_paths generated atts) ->
                dict_get p (remote w') = dict_get p (remote w)).
Proof.
  intros Hround Hrun Hsnap Hatts Hgen.
  assert (Hcore :
            (exists n, put_paths (new_events w w')
                       = firstn n (file_set_paths generated atts))
            /\ (r = Returns tt \/ existsb is_notification (new_events w w') = true ->
                put_paths (new_events w w') = file_set_paths generated atts)
            /\ (forall f,
                   ~ In f (targets E (task t) (file_set_paths generated atts)) ->
                   dict_get f (remote w') = dict_get f (remote w))).
  { destruct (handle_task_stages E t w r w' Hrun)
      as (r1 & w2 & Hd & Hremote & Hcase).
    rewrite (later_round_dispatch E t Hround), handle_round_2_run, Hsnap in Hd.
    assert (Hquiet : forall evs,
               forallb is_plain evs = true ->
               new_events w w' = evs ->
               (exists e, r = Raises e) ->
               remote w' = remote w ->
               (exists n, put_paths (new_events w w')
                          = firstn n (file_set_paths generated atts))
               /\ (r = Returns tt
                   \/ existsb is_notification (new_events w w') = true ->
                   put_paths (new_events w w') = file_set_paths generated atts)
               /\ (forall f,
                      ~ In f (targets E (task t)
                                (file_set_paths generated atts)) ->
                      dict_get f (remote w') = dict_get f (remote w))).
    { intros evs Hplain -> [e ->] Hst. split; [|split].
      - exists 0%nat. now rewrite (plain_no_put _ Hplain).
      - intros [H | H]; [discriminate|].
        rewrite (plain_no_notification _ Hplain) in H. discriminate.
      - intros f _. now rewrite Hst. }
    destruct existing as [|entry more].
    - (* nothing to modify: the round raised at once *)
      injection Hd as <- <-.
      destruct Hcase as [(Hr & -> & _) | (id & payload & Hr & _)];
        [|discriminate].
      apply (Hquiet []); auto.
      apply new_events_app. now rewrite app_nil_r.
    - rewrite Hatts, Hgen in Hd.
      destruct (generate_app_code_effect _ _ _ _ _ _ _ _ _ Hgen)
        as (Hst1 & (chats & Htr1 & Hchat) & _).
      destruct (overlay E atts generated) as [fs|e0] eqn:Hov.
      + pose proof (overlay_keys E atts generated fs Hov) as Hkeys.
        fold (file_set_paths generated atts) in Hkeys.
        destruct (upload_all_trace E (task t) fs None w1 r1 w2 Hd)
          as (puts & Hputs & Hall & Hret).
        destruct (upload_all_paths E (task t) fs None w1 r1 w2 Hd) as (n & Hn).
        rewrite (new_events_app w1 w2 puts Hputs), Hkeys in Hn.
        assert (Hplain : put_paths chats = [])
          by (apply plain_no_put; now apply model_calls_plain).
        assert (Hframe : forall f,
                   ~ In f (targets E (task t) (file_set_paths generated atts)) ->
                   dict_get f (remote w') = dict_get f (remote w)).
        { intros f Hf. rewrite Hremote, <- Hst1. rewrite <- Hkeys in Hf.
          exact (upload_all_frame E (task t) fs None w1 r1 w2 Hd f Hf). }
        destruct Hcase as [([e ->] & -> & _) | (id & payload & -> & Hid & Hnote)].
        * rewrite (new_events_app w w2 (chats ++ puts)%list)
            by (rewrite Hputs, Htr1; now rewrite <- app_assoc).
          rewrite put_paths_app, Hplain. cbn [app].
          split; [now exists n|]. split; [|exact Hframe].
          intros [H | H]; [discriminate|].
          rewrite existsb_app,
            (plain_no_notification _ (model_calls_plain _ Hchat)),
            (writes_no_notification _ _ Hall) in H.
          discriminate.
        * rewrite (new_events_app w w'
                     ((chats ++ puts)
                      ++ [PostEvaluation (evaluation_url t) payload])%list)
            by (rewrite Hnote, Hputs, Htr1; now rewrite <- !app_assoc).
          rewrite !put_paths_app, Hplain. cbn [app put_paths flat_map].
          rewrite app_nil_r.
          split; [now exists n|]. split; [|exact Hframe].
          intros _. rewrite <- Hkeys. now destruct (Hret id eq_refl).
      + injection Hd as <- <-.
        destruct Hcase as [(Hr & -> & _) | (id & payload & Hr & _)];
          [|discriminate].
        apply (Hquiet chats); auto.
        * now apply model_calls_plain.
        * now apply new_events_app. }
  destruct Hcore as (Hprefix & Hall & Hframe).
  split; [exact Hprefix|]. split; [exact Hall|]. split; [exact Hframe|].
  intros Hself p Hp. apply Hframe. unfold targets. intros Hin.
  apply in_map_iff in Hin. destruct Hin as (q & Hq & Hin).
  rewrite (Hself q Hin) in Hq. subst q. now apply Hp.
Qed.

Lemma later_round_writes_only_file_set_witness :
  put_paths
    (new_events Scenario.published
       (snd (handle_task Scenario.modification
               (Scenario.request 2 [Scenario.stylesheet; Scenario.logo])
               Scenario.published)))
  = ["style.css"; "logo.txt"]
  /\ dict_get "index.html"
       (remote (snd (handle_task Scenario.modification
                       (Scenario.request 2 [Scenario.stylesheet; Scenario.logo])
                       Scenario.published)))
     = dict_get "index.html" (remote Scenario.published).
Proof.
  destruct (later_round_writes_only_file_set Scenario.modification
              (Scenario.request 2 [Scenario.stylesheet; Scenario.logo])
              Scenario.published _ _ _ _ _ _
              eq_refl (surjective_pairing _) eq_refl eq_refl eq_refl)
    as (_ & Hall & Hframe & _).
  split.
  - exact (Hall (or_introl eq_refl)).
  - apply Hframe. vm_compute. intuition discriminate.
Defined.

(** C2 as worded fails: the model names the file [index.html#v2]; the
    path [index.html] is absent from the file set, and the write for the
    key, whose URL addresses [index.html], replaces that file. *)
Lemma fragment_key_overwrites_absent_path :
  ~ absent_paths_untouched Scenario.anchored (Scenario.request 2 [])
      Scenario.published.
Proof.
  intros H.
  specialize (H eq_refl _ _ _ _ eq_refl eq_refl eq_refl "index.html").
  assert (Hout : ~ In "index.html" ["index.html#v2"])
    by (intros [Heq | []]; discriminate Heq).
  specialize (H Hout). vm_compute in H. discriminate H.
Qed.

(** ** The attachment at a path *)






(** ** The reply of the endpoint *)

Lemma accepted_puts_some (evs : list event) :
  evs <> [] -> forallb accepted_put evs = true -> existsb accepted_put evs = true.
Proof.
  destruct evs as [|ev evs]; [intros H; now elim H|].
  cbn. intros _ H. apply andb_prop in H. now rewrite (proj1 H).
Qed.

(** C9, as amended: once the secret is accepted, the reply is made from
    the outcome of [handle_task], when it has finished.  The
    acknowledgement is given only when [handle_task] returned, and then
    the writes have been made, every one accepted, and the notification
    has been sent, as the last request, and answered 200; when
    [handle_task] raised, the reply is a 500 carrying the exception's
    text.  In both cases the world is the one [handle_task] left. *)
Theorem reply_follows_handle_task (E : env) (req : TaskRequest) (w : world)
    (reply : http_reply) (w' : world) :
  secret_differs (secret req) (STUDENT_SECRET E) = false ->
  receive_task E req w = (reply, w') ->
  (reply = acknowledgement
   /\ handle_task E req w = (Returns tt, w')
   /\ exists evs id,
        new_events w w'
        = (evs ++ [PostEvaluation (evaluation_url req)
                     (notification E req id)])%list
        /\ existsb accepted_put evs = true
        /\ (forall p c s resp, In (PutFile p c s resp) evs -> accepted resp = true)
        /\ existsb is_notification evs = false
        /\ status_code (post_evaluation E (evaluation_url req)
                          (notification E req id)) = 200)
  \/ (exists e,
         reply = HTTPException 500 (exn_text e)
         /\ handle_task E req w = (Raises e, w')).
Proof.
  intros Hsecret. unfold receive_task. rewrite Hsecret.
  destruct (handle_task E req w) as [[[]|e] w1] eqn:Hrun;
    intros H; injection H as <- <-; [left | right; eauto].
  split; [reflexivity|]. split; [reflexivity|].
  rewrite handle_task_run in Hrun.
  destruct (dispatch E req w) as [r1 w0] eqn:Hd.
  destruct (dispatch_order E req w r1 w0 Hd)
    as (head & calls & puts & tail & Htr & Hhead & Hcalls & Hputs & Htail & Hret).
  destruct r1 as [id|e]; [|discriminate].
  destruct (Hret id eq_refl) as [Hacc Hlast].
  destruct (truthy id) eqn:Hid; cbn [negb] in Hrun; [|discriminate].
  cbv zeta in Hrun.
  destruct (status_code (post_evaluation E (evaluation_url req)
                           (notification E req id)) =? 200) eqn:Hstatus;
    cbn [negb] in Hrun; [|discriminate].
  injection Hrun as <-.
  assert (Hsome : puts <> []).
  { intros ->. cbn in Hlast. subst id. discriminate. }
  assert (Hhead' : forallb is_plain head = true).
  { destruct Hhead as [[_ ->] | [_ ->]]; reflexivity. }
  assert (Htail' : forallb is_plain tail = true).
  { destruct Htail as [[-> _] | (_ & -> & _)]; reflexivity. }
  exists (head ++ calls ++ puts ++ tail)%list, id.
  split.
  { apply new_events_app. cbn [trace posted]. now rewrite Htr, <- !app_assoc. }
  split.
  { rewrite !existsb_app, (accepted_puts_some puts Hsome Hacc).
    now rewrite !orb_true_r. }
  split.
  { intros p c s resp Hin. rewrite !in_app_iff in Hin.
    destruct Hin as [Hin|[Hin|[Hin|Hin]]].
    - now elim (plain_In_put head p c s resp Hhead').
    - now elim (plain_In_put calls p c s resp (model_calls_plain _ Hcalls)).
    - exact (proj1 (forallb_forall _ _) Hacc _ Hin).
    - now elim (plain_In_put tail p c s resp Htail'). }
  split.
  { rewrite !existsb_app, (plain_no_notification _ Hhead'),
      (plain_no_notification _ Htail'),
      (plain_no_notification _ (model_calls_plain _ Hcalls)),
      (puts_no_notification _ Hputs). reflexivity. }
  now apply Z.eqb_eq.
Qed.

Lemma reply_follows_handle_task_witness :
  (fst (receive_task Scenario.creation (Scenario.request 1 []) Scenario.fresh)
   = acknowledgement
   /\ exists evs id,
        new_events Scenario.fresh
          (snd (receive_task Scenario.creation (Scenario.request 1 [])
                  Scenario.fresh))
        = (evs ++ [PostEvaluation "https://eval.example/notify"
                     (notification Scenario.creation (Scenario.request 1 []) id)])%list
        /\ existsb accepted_put evs = true)
  /\ fst (receive_task Cases.locked (Scenario.request 1 []) Scenario.fresh)
     = HTTPException 500 "Upload failed for index.html: conflict".
Proof.
  split.
  - destruct (reply_follows_handle_task Scenario.creation (Scenario.request 1 [])
                Scenario.fresh _ _ eq_refl (surjective_pairing _))
      as [(Hack & _ & evs & id & Hev & Hput & _) | (e & Hreply & _)].
    + split; [exact Hack|]. exists evs, id. split; [exact Hev | exact Hput].
    + vm_compute in Hreply. discriminate Hreply.
  - destruct (reply_follows_handle_task Cases.locked (Scenario.request 1 [])
                Scenario.fresh _ _ eq_refl (surjective_pairing _))
      as [(Hack & _) | (e & Hreply & Hrun)].
    + vm_compute in Hack. discriminate Hack.
    + vm_compute in Hrun. injection Hrun as <-. exact Hreply.
Defined.

(** C9 as worded fails: a first-round payload with the right secret, for
    which every write is rejected by the store, is answered with a 500
    carrying the text of the failed upload, not with the
    acknowledgement. *)
Lemma failed_publish_not_acknowledged :
  ~ acknowledged_regardless Cases.locked (Scenario.request 1 []) Scenario.fresh.
Proof.
  intros H.
  assert (Hacc : accepted_payload Cases.locked (Scenario.request 1 []))
    by (split; [reflexivity | discriminate]).
  specialize (H Hacc). vm_compute in H. discriminate H.
Qed.
